(** * The used car price predictor: a shallow embedding of [app.py]

    The development follows the source file top to bottom: the exchange-rate
    fetch, the option catalogs ([prepare_options]), the form pass with its
    validation flag, the assembly of the record handed to the preprocessor and
    the currency formatting of the prediction.

    Python values are a small tagged union, a [dict] whose iteration order
    matters is an insertion-ordered association list, the dictionary of widget
    outputs (only ever tested for membership and subscripted) is a [gmap], and a
    Python [float] is an IEEE binary64 number of [SpecFloat]. *)

From Stdlib Require Import ZArith Lia Bool Ascii String.
From Stdlib Require Import Floats.SpecFloat.
From Stdlib Require Import Numbers.DecimalString Numbers.DecimalN.
From stdpp Require Import base option list sorting gmap strings.

#[local] Set Warnings "-register-all".

#[local] Open Scope Z_scope.

(** ** Binary64 floats

    Python's [float] and NumPy's [float64] are IEEE 754 binary64 numbers with
    round-to-nearest-even arithmetic: [SpecFloat] at precision 53 and maximal
    exponent 1024. *)

Module F64.

Definition prec : Z := 53.
Definition emax : Z := 1024.

(** [float(z)] for a Python [int]. *)
Definition of_Z (z : Z) : spec_float := binary_normalize prec emax z 0 false.

Definition mul : spec_float -> spec_float -> spec_float := SFmul prec emax.
Definition div : spec_float -> spec_float -> spec_float := SFdiv prec emax.

(** The literal written [m / 10^k] in decimal, e.g. [lit 85 2] for [0.85]:
    the binary64 number nearest to it, as Python's parser produces. *)
Definition lit (m : Z) (k : nat) : spec_float := div (of_Z m) (of_Z (10 ^ Z.of_nat k)).

Definition is_finite (f : spec_float) : bool :=
  match f with
  | S754_zero _ | S754_finite _ _ _ => true
  | S754_infinity _ | S754_nan => false
  end.

Definition is_nan (f : spec_float) : bool :=
  match f with
  | S754_nan => true
  | _ => false
  end.

(** The sign bit. *)
Definition signbit (f : spec_float) : bool :=
  match f with
  | S754_zero s | S754_infinity s | S754_finite s _ _ => s
  | S754_nan => false
  end.

(** A finite float is [num / 2^sh] exactly, with [num] an integer: the pair
    [(num, sh)]. *)
Definition dyadic (f : spec_float) : Z * Z :=
  match f with
  | S754_finite s m e =>
      let n := if s then Z.neg m else Z.pos m in
      if 0 <=? e then (n * 2 ^ e, 0) else (n, - e)
  | _ => (0, 0)
  end.

(** Exact three-way comparison of a Python [int] with a [float]
    ([None] when the float is NaN). *)
Definition compare_Z (z : Z) (f : spec_float) : option comparison :=
  match f with
  | S754_nan => None
  | S754_infinity s => Some (if s then Gt else Lt)
  | _ => let '(n, sh) := dyadic f in Some (Z.compare (z * 2 ^ sh) n)
  end.

End F64.

(** ** Python values *)

Module Py.

(** The scalars the application handles: [int], [float] (with [np.nan] the
    binary64 NaN), [str] and [None]. *)
Inductive number :=
| NInt (z : Z)
| NFloat (f : spec_float).

Inductive value :=
| VNum (n : number)
| VStr (s : string)
| VNone.

Definition VInt (z : Z) : value := VNum (NInt z).
Definition VFloat (f : spec_float) : value := VNum (NFloat f).

(** [np.nan] *)
Definition nan : value := VFloat S754_nan.

(** Three-way comparison of two numbers, exact across [int] and [float] as in
    Python; [None] when a NaN is involved. Two floats are compared as
    [SpecFloat] compares them, which is the order of their values on the
    normalised representations that binary64 arithmetic produces. *)
Definition num_compare (a b : number) : option comparison :=
  match a, b with
  | NInt x, NInt y => Some (x ?= y)
  | NInt x, NFloat g => F64.compare_Z x g
  | NFloat f, NInt y => CompOpp <$> F64.compare_Z y f
  | NFloat f, NFloat g => SFcompare f g
  end.

(** [a < b] and [a > b]; any comparison with NaN is [False]. *)
Definition num_lt (a b : number) : bool :=
  match num_compare a b with
  | Some Lt => true
  | _ => false
  end.

Definition num_gt (a b : number) : bool := num_lt b a.

(** The binary64 value nearest to a number: [float(n)] where the conversion
    succeeds, see [float_of_number]. *)
Definition to_float (n : number) : spec_float :=
  match n with
  | NInt z => F64.of_Z z
  | NFloat f => f
  end.

(** Exceptions the modelled statements can raise. *)
Inductive exn :=
| KeyError (k : string)
| TypeError
| ValueError
| OverflowError
| AttributeError
| RequestException.

Inductive result (A : Type) :=
| Ok (a : A)
| Raise (e : exn).
Arguments Ok {A} a.
Arguments Raise {A} e.

#[global] Instance result_ret : MRet result := fun A a => Ok a.

#[global] Instance result_bind : MBind result := fun A B k c =>
  match c with
  | Ok a => k a
  | Raise e => Raise e
  end.

#[global] Instance result_fmap : FMap result := fun A B g c =>
  match c with
  | Ok a => Ok (g a)
  | Raise e => Raise e
  end.

(** [try: body / except: handler] with a bare [except]. *)
Definition try_except {A} (body : result A) (handler : exn -> result A) : result A :=
  match body with
  | Ok a => Ok a
  | Raise e => handler e
  end.

(** [float(n)], as the product with a [float64] converts an [int]: an [int]
    whose nearest binary64 value is out of range raises [OverflowError]. *)
Definition float_of_number (n : number) : result spec_float :=
  match n with
  | NInt z =>
      if F64.is_finite (F64.of_Z z) then Ok (F64.of_Z z) else Raise OverflowError
  | NFloat f => Ok f
  end.

(** [for x in xs: s = body(s, x)], stopping at the first exception. *)
Fixpoint for_each {A S} (body : S -> A -> result S) (xs : list A) (s : S) : result S :=
  match xs with
  | [] => Ok s
  | x :: xs' => s' ← body s x; for_each body xs' s'
  end.

End Py.
Import Py.

(** ** Insertion-ordered dictionaries

    A Python [dict] iterates in insertion order and assigning to a key that is
    already there keeps the key's position. *)

Module Dict.

Section Ops.
Context {V : Type}.

Fixpoint get (d : list (string * V)) (k : string) : option V :=
  match d with
  | [] => None
  | (k', v) :: d' => if String.eqb k' k then Some v else get d' k
  end.

(** [k in d] *)
Definition mem (d : list (string * V)) (k : string) : bool :=
  match get d k with
  | Some _ => true
  | None => false
  end.

(** [d[k] = v] *)
Fixpoint set (d : list (string * V)) (k : string) (v : V) : list (string * V) :=
  match d with
  | [] => [(k, v)]
  | (k', v') :: d' =>
      if String.eqb k' k then (k', v) :: d' else (k', v') :: set d' k v
  end.

(** [list(d.keys())] *)
Definition keys (d : list (string * V)) : list string := map fst d.

(** [d[k]] *)
Definition getitem (d : list (string * V)) (k : string) : result V :=
  match get d k with
  | Some v => Ok v
  | None => Raise (KeyError k)
  end.

(** [d.get(k, default)] *)
Definition get_default (d : list (string * V)) (k : string) (default : V) : V :=
  match get d k with
  | Some v => v
  | None => default
  end.
End Ops.

End Dict.

(** ** The exchange-rate fetch ([get_exchange_rates]) *)

Module Rates.

(** What [response.json()] can return. A JSON object is the Python [dict]
    built from it. *)
Inductive json :=
| JNull
| JBool (b : bool)
| JNum (n : number)
| JStr (s : string)
| JArr (items : list json)
| JObj (fields : list (string * json)).

(** The outcome of [requests.get(...)] followed by [response.json()]: the
    request raises, or the body does not parse, or it parses to a value. *)
Inductive http_outcome :=
| NetworkFailure
| ParseFailure
| Parsed (data : json).

Definition requests_get_json (o : http_outcome) : result json :=
  match o with
  | NetworkFailure => Raise RequestException
  | ParseFailure => Raise ValueError
  | Parsed data => Ok data
  end.

(** [v == s] for a string [s]: only an equal string compares equal. *)
Definition eq_str (v : json) (s : string) : bool :=
  match v with
  | JStr t => String.eqb t s
  | _ => false
  end.

Fixpoint is_prefix (p s : string) : bool :=
  match p, s with
  | EmptyString, _ => true
  | String a p', String b s' => Ascii.eqb a b && is_prefix p' s'
  | String _ _, EmptyString => false
  end.

Fixpoint is_substring (p s : string) : bool :=
  is_prefix p s ||
  match s with
  | EmptyString => false
  | String _ s' => is_substring p s'
  end.

(** [v[k]] with a string key. *)
Definition subscript (v : json) (k : string) : result json :=
  match v with
  | JObj fields => Dict.getitem fields k
  | _ => Raise TypeError
  end.

(** [k in v] with a string [k]: key membership for a dict, element membership
    for a list, substring test for a string, [TypeError] otherwise. *)
Definition contains (v : json) (k : string) : result bool :=
  match v with
  | JObj fields => Ok (Dict.mem fields k)
  | JArr items => Ok (existsb (fun x => eq_str x k) items)
  | JStr s => Ok (is_substring k s)
  | _ => Raise TypeError
  end.

(** [v[k] = x] with a string key: only a dict supports it. *)
Definition setitem (v : json) (k : string) (x : json) : result json :=
  match v with
  | JObj fields => Ok (JObj (Dict.set fields k x))
  | _ => Raise TypeError
  end.

Definition fallback_rates : json :=
  JObj [ ("USD", JNum (NFloat (F64.of_Z 1)));
         ("EUR", JNum (NFloat (F64.lit 85 2)));
         ("GBP", JNum (NFloat (F64.lit 75 2)));
         ("JPY", JNum (NFloat (F64.of_Z 110)));
         ("CAD", JNum (NFloat (F64.lit 125 2)));
         ("AUD", JNum (NFloat (F64.lit 135 2)));
         ("EGP", JNum (NInt 50)) ].

(** The body of the [try]. *)
Definition fetch_live (o : http_outcome) : result json :=
  data ← requests_get_json o;
  result_field ← subscript data "result";
  if eq_str result_field "success" then
    rates ← subscript data "rates";
    has_egp ← contains rates "EGP";
    if negb has_egp then setitem rates "EGP" (JNum (NInt 50))
    else Ok rates
  else Ok fallback_rates.

Definition get_exchange_rates (o : http_outcome) : result json :=
  try_except (fetch_live o) (fun _ => Ok fallback_rates).

(** A rate that is a number, finite and strictly positive. *)
Definition positive_finite (v : json) : bool :=
  match v with
  | JNum (NInt z) => 0 <? z
  | JNum (NFloat (S754_finite false _ _)) => true
  | _ => false
  end.

(** The table has a positive finite rate for currency [c]. *)
Definition has_rate (table : json) (c : string) : bool :=
  match table with
  | JObj fields =>
      match Dict.get fields c with
      | Some v => positive_finite v
      | None => false
      end
  | _ => false
  end.

(** The response indicates success: [data["result"] == "success"] evaluates
    to [True]. *)
Definition indicates_success (data : json) : bool :=
  match subscript data "result" with
  | Ok r => eq_str r "success"
  | Raise _ => false
  end.

End Rates.

(** ** Number formatting: [str(int)], [int(float)] and the format
    specifications [","] and [",.2f"] *)

Module Fmt.

(** The decimal digits of a natural number, ["0"] for zero. *)
Definition digits (n : N) : string := NilZero.string_of_uint (N.to_uint n).

Definition sign_prefix (negative : bool) : string :=
  if negative then "-" else "".

(** [str(z)] *)
Definition str_int (z : Z) : string :=
  sign_prefix (z <? 0) +:+ digits (Z.abs_N z).

(** Thousands grouping: a comma after a digit when the number of digits that
    remain is a positive multiple of three. *)
Fixpoint group3 (ds : string) : string :=
  match ds with
  | EmptyString => EmptyString
  | String d rest =>
      let n := String.length rest in
      if negb (n =? 0)%nat && (n mod 3 =? 0)%nat
      then String d (String "," (group3 rest))
      else String d (group3 rest)
  end.

(** [f"{z:,}"] *)
Definition format_int_grouped (z : Z) : string :=
  sign_prefix (z <? 0) +:+ group3 (digits (Z.abs_N z)).

(** [int(f)]: truncation toward zero; NaN and the infinities raise. *)
Definition int_of_float (f : spec_float) : result Z :=
  match f with
  | S754_nan => Raise ValueError
  | S754_infinity _ => Raise OverflowError
  | S754_zero _ => Ok 0
  | S754_finite s m e =>
      let a := if 0 <=? e then Z.pos m * 2 ^ e else Z.pos m / 2 ^ (- e) in
      Ok (if s then - a else a)
  end.

(** [a / b] rounded to the nearest integer, ties to even ([0 < b]). *)
Definition div_half_even (a b : Z) : Z :=
  let q := a / b in
  match 2 * (a mod b) ?= b with
  | Lt => q
  | Gt => q + 1
  | Eq => if Z.even q then q else q + 1
  end.

(** The magnitude of a finite float in hundredths, correctly rounded
    (ties to even on the exact binary value, as [PyOS_double_to_string]
    does for the ["f"] presentation). *)
Definition hundredths (f : spec_float) : Z :=
  match f with
  | S754_finite _ m e =>
      if 0 <=? e then Z.pos m * 2 ^ e * 100
      else div_half_even (Z.pos m * 100) (2 ^ (- e))
  | _ => 0
  end.

Definition two_digits (n : Z) : string :=
  digits (Z.to_N (n / 10)) +:+ digits (Z.to_N (n mod 10)).

(** [f"{x:,.2f}"] *)
Definition format_fixed2_grouped (f : spec_float) : string :=
  match f with
  | S754_nan => "nan"
  | S754_infinity s => sign_prefix s +:+ "inf"
  | _ =>
      let h := hundredths f in
      sign_prefix (F64.signbit f) +:+ group3 (digits (Z.to_N (h / 100)))
        +:+ "." +:+ two_digits (h mod 100)
  end.

End Fmt.

(** ** Option catalogs ([prepare_options] and the lists built with it) *)

Module Catalog.

(** An entry of a raw option list: a string, [np.nan] or [None], or an [int].
    The raw lists of the application hold strings and [np.nan] only; a float
    other than NaN is outside this type. *)
Inductive raw_item :=
| RawStr (s : string)
| RawInt (z : Z)
| RawNaN
| RawNone.

(** [pd.isna(item)] *)
Definition isna (item : raw_item) : bool :=
  match item with
  | RawNaN | RawNone => true
  | RawStr _ | RawInt _ => false
  end.

(** [str(item)] for an item that is not missing. *)
Definition str (item : raw_item) : string :=
  match item with
  | RawStr s => s
  | RawInt z => Fmt.str_int z
  | RawNaN => "nan"
  | RawNone => "None"
  end.

(** [sorted(xs)] on strings: Python orders strings by code point, position by
    position, which is [String.le]. *)
Definition sorted (xs : list string) : list string := merge_sort String.le xs.

(** [list(set(xs))]: the distinct elements; Python leaves their order
    unspecified, and [sorted] makes the result independent of it. *)
Definition list_set (xs : list string) : list string := remove_dups xs.

Definition prepare_options (raw_list : list raw_item) (nan_replacement : string)
    (sort : bool) : list string :=
  let options_str :=
    map (fun item => if isna item then nan_replacement else str item) raw_list in
  if sort then sorted (list_set options_str)
  else list_set options_str.

Definition body_type_opts_raw : list raw_item :=
  [RawStr "Pickup Truck"; RawStr "Sedan"; RawStr "SUV / Crossover"; RawStr "Van";
   RawStr "Hatchback"; RawStr "Coupe"; RawStr "Minivan"; RawStr "Convertible";
   RawStr "Wagon"; RawNaN].

Definition engine_cylinders_opts_raw : list raw_item :=
  [RawStr "V8"; RawStr "I4"; RawStr "V6 Hybrid"; RawStr "V6";
   RawStr "V6 Flex Fuel Vehicle"; RawStr "I3"; RawStr "H4";
   RawStr "V8 Flex Fuel Vehicle"; RawNaN; RawStr "I4 Flex Fuel Vehicle";
   RawStr "I6 Diesel"; RawStr "I4 Hybrid"; RawStr "I6"; RawStr "I4 Diesel";
   RawStr "V8 Biodiesel"; RawStr "V6 Biodiesel"; RawStr "V8 Diesel";
   RawStr "V6 Diesel"; RawStr "I5"; RawStr "H6"; RawStr "V10"; RawStr "W12";
   RawStr "V12"; RawStr "I4 Compressed Natural Gas"; RawStr "I2";
   RawStr "V8 Hybrid"; RawStr "V8 Compressed Natural Gas"; RawStr "I5 Diesel";
   RawStr "H4 Hybrid"; RawStr "I5 Biodiesel"; RawStr "W12 Flex Fuel Vehicle";
   RawStr "R2"; RawStr "I6 Hybrid"; RawStr "V8 Propane";
   RawStr "V6 Compressed Natural Gas"; RawStr "V10 Diesel"; RawStr "W8";
   RawStr "I3 Hybrid"].

Definition engine_type_opts_raw : list raw_item := engine_cylinders_opts_raw.

Definition fuel_type_opts_raw : list raw_item :=
  [RawStr "Gasoline"; RawStr "Hybrid"; RawStr "Flex Fuel Vehicle"; RawNaN;
   RawStr "Diesel"; RawStr "Electric"; RawStr "Biodiesel";
   RawStr "Compressed Natural Gas"; RawStr "Propane"].

Definition listing_color_opts_raw : list raw_item :=
  [RawStr "SILVER"; RawStr "GRAY"; RawStr "WHITE"; RawStr "BLACK"; RawStr "BLUE";
   RawStr "RED"; RawStr "UNKNOWN"; RawStr "GREEN"; RawStr "YELLOW"; RawStr "BROWN";
   RawStr "GOLD"; RawStr "TEAL"; RawStr "ORANGE"; RawStr "PURPLE"; RawStr "PINK"].

Definition transmission_opts_raw : list raw_item :=
  [RawStr "A"; RawStr "CVT"; RawStr "M"; RawNaN; RawStr "Dual Clutch"].

Definition wheel_system_opts_raw : list raw_item :=
  [RawStr "4WD"; RawStr "FWD"; RawStr "AWD"; RawNaN; RawStr "RWD"; RawStr "4X2"].

Definition body_type_options : list string :=
  prepare_options body_type_opts_raw "Unknown" true.
Definition engine_cylinders_options : list string :=
  prepare_options engine_cylinders_opts_raw "Unknown" true.
Definition engine_type_options : list string :=
  prepare_options engine_type_opts_raw "Unknown" true.
Definition fuel_type_options : list string :=
  prepare_options fuel_type_opts_raw "Unknown" true.
Definition listing_color_options : list string :=
  prepare_options listing_color_opts_raw "UNKNOWN" true.

(** Internal transmission code to display label, in declaration order. *)
Definition transmission_options_map : list (string * string) :=
  [("A", "Automatic"); ("M", "Manual"); ("CVT", "CVT");
   ("Dual Clutch", "Dual Clutch"); ("Unknown", "Unknown")].

Definition prepared_trans_opts : list string :=
  prepare_options transmission_opts_raw "Unknown" true.
Definition display_trans_opts : list string :=
  map (fun opt => Dict.get_default transmission_options_map opt opt) prepared_trans_opts.
Definition wheel_system_options : list string :=
  prepare_options wheel_system_opts_raw "Unknown" true.

Definition numerical_cols : list string :=
  ["back_legroom"; "city_fuel_economy"; "daysonmarket"; "engine_displacement";
   "fleet"; "frame_damaged"; "franchise_dealer"; "front_legroom";
   "fuel_tank_volume"; "has_accidents"; "height"; "highway_fuel_economy";
   "horsepower"; "isCab"; "is_new"; "length"; "maximum_seating";
   "mileage"; "owner_count"; "salvage"; "savings_amount"; "seller_rating";
   "theft_title"; "wheelbase"; "width"; "car_age"].

(** The columns fed by a selectbox, each with the options of its widget. *)
Definition categorical_widget_map : list (string * list string) :=
  [("body_type", body_type_options);
   ("engine_cylinders", engine_cylinders_options);
   ("engine_type", engine_type_options);
   ("fuel_type", fuel_type_options);
   ("listing_color", listing_color_options);
   ("transmission", display_trans_opts);
   ("wheel_system", wheel_system_options)].

Definition boolean_flags : list string :=
  ["fleet"; "frame_damaged"; "franchise_dealer"; "has_accidents"; "isCab";
   "is_new"; "salvage"; "theft_title"].

(** [x in xs] for a list of strings. *)
Definition in_list (x : string) (xs : list string) : bool :=
  existsb (String.eqb x) xs.

(** [col_name not in categorical_widget_map and col_name not in boolean_flags] *)
Definition is_numeric_column (col_name : string) : bool :=
  negb (Dict.mem categorical_widget_map col_name) && negb (in_list col_name boolean_flags).

(** The loop at "Map back to original value for the model": the first internal
    code whose display label is the selected one, else the label itself. *)
Fixpoint reverse_lookup (items : list (string * string)) (selected default : string)
    : string :=
  match items with
  | [] => default
  | (k, v) :: rest =>
      if String.eqb v selected then k else reverse_lookup rest selected default
  end.

Definition original_trans_value (display_map : list (string * string))
    (selected_display_trans : string) : string :=
  reverse_lookup display_map selected_display_trans selected_display_trans.

End Catalog.

(** ** The Streamlit page: widgets, the form pass and the prediction *)

Module App.
Import Catalog.

(** What the user did on the page in one script run: the number entered in
    each number input, the position chosen in each selectbox and the buttons
    pressed. *)
Record widgets := {
  number_input : string -> number;
  selected_index : string -> nat;
  button_clicked : string -> bool
}.

Inductive ui_message :=
| StError (text : string)
| StWarning (text : string)
| StInfo (text : string)
| StPredictionError (e : exn).

(** [st.selectbox(label, options=options)] *)
Definition st_selectbox (w : widgets) (label : string) (options : list string) : value :=
  match options !! selected_index w label with
  | Some o => VStr o
  | None =>
      match options with
      | o :: _ => VStr o
      | [] => VNone
      end
  end.

(** A number the front end can hold in a number input: an [int], or a
    finite binary64 value. *)
Definition enterable (n : number) : bool :=
  match n with
  | NInt _ => true
  | NFloat f => F64.is_finite f && valid_binary F64.prec F64.emax f
  end.

(** [min_value <= n <= max_value], a bound that is not passed being no
    bound. *)
Definition within_bounds (min_value max_value : option number) (n : number) : bool :=
  match min_value with
  | Some lo => negb (num_lt n lo)
  | None => true
  end
  && match max_value with
     | Some hi => negb (num_gt n hi)
     | None => true
     end.

(** [st.number_input(label, min_value=..., max_value=..., value=...)]. The
    widget commits an entry only if it is a number within the bounds it was
    created with; after an entry it does not accept it keeps its value, which
    is taken here to be the default [value]. The script therefore never
    receives a number outside the bounds. *)
Definition st_number_input (w : widgets) (label : string)
    (min_value max_value : option number) (value : number) : number :=
  let entry := number_input w label in
  if enterable entry && within_bounds min_value max_value entry then entry
  else value.

(** [st.button(label, disabled=disabled)]: a disabled button is never
    reported as clicked. *)
Definition st_button (w : widgets) (label : string) (disabled : bool) : bool :=
  if disabled then false else button_clicked w label.

(** The state the form pass threads: the raw widget outputs, the validity
    flag and the messages shown so far. *)
Record form := {
  input_values_from_widgets : gmap string value;
  valid_inputs : bool;
  shown : list ui_message
}.

Definition form_start : form :=
  {| input_values_from_widgets := ∅; valid_inputs := true; shown := [] |}.

(** One numeric field: [if col in original_feature_columns:], read the
    widget, run the field's checks ([check] gives the messages and whether
    [valid_inputs] is left alone; [false] is the assignment
    [valid_inputs = False]), store the value. *)
Definition number_field (schema : list string) (w : widgets) (col label : string)
    (min_value max_value : option number) (value : number)
    (check : number -> list ui_message * bool) (s : form) : form :=
  if in_list col schema then
    let v := st_number_input w label min_value max_value value in
    let '(msgs, ok) := check v in
    {| input_values_from_widgets := <[col := VNum v]> (input_values_from_widgets s);
       valid_inputs := valid_inputs s && ok;
       shown := shown s ++ msgs |}
  else s.

Definition store (col : string) (v : value) (s : form) : form :=
  {| input_values_from_widgets := <[col := v]> (input_values_from_widgets s);
     valid_inputs := valid_inputs s;
     shown := shown s |}.

Definition select_field (schema : list string) (w : widgets) (col label : string)
    (options : list string) (s : form) : form :=
  if in_list col schema then store col (st_selectbox w label options) s else s.

Definition no_check (_ : number) : list ui_message * bool := ([], true).

Definition check_mileage (mileage : number) : list ui_message * bool :=
  if num_gt mileage (NInt 300000) then
    ([StWarning "High mileage: This is above typical values for most used cars."], true)
  else if num_lt mileage (NInt 1000) then
    ([StInfo "Very low mileage: Is this a nearly new car?"], true)
  else ([], true).

Definition check_car_age (car_age : number) : list ui_message * bool :=
  if num_gt car_age (NInt 30) then
    ([StWarning "This is an unusually old car."], true)
  else if num_lt car_age (NInt 1) then
    ([StInfo "Is this a new or nearly new car?"], true)
  else ([], true).

Definition check_horsepower (horsepower : number) : list ui_message * bool :=
  if num_gt horsepower (NInt 1200) || num_lt horsepower (NInt 10) then
    ([StError "Horsepower must be between 10 and 1200."], false)
  else if num_gt horsepower (NInt 600) then
    ([StWarning "High horsepower: This is above typical values for most cars."], true)
  else if num_lt horsepower (NInt 50) then
    ([StInfo "Very low horsepower: Is this a compact or economy car?"], true)
  else ([], true).

Definition check_engine_displacement (engine_displacement : number)
    : list ui_message * bool :=
  if num_gt engine_displacement (NFloat (F64.of_Z 10))
     || num_lt engine_displacement (NFloat (F64.lit 1 1)) then
    ([StError "Engine displacement must be between 0.1 and 10.0."], false)
  else if num_gt engine_displacement (NFloat (F64.of_Z 6)) then
    ([StWarning
        "Large engine displacement: This is above typical values for most cars."],
     true)
  else if num_lt engine_displacement (NFloat (F64.of_Z 1)) then
    ([StInfo "Small engine: Is this a compact or hybrid car?"], true)
  else ([], true).

Definition check_fuel_tank_volume (fuel_tank_volume : number) : list ui_message * bool :=
  if num_lt fuel_tank_volume (NFloat (F64.of_Z 1))
     || num_gt fuel_tank_volume (NFloat (F64.of_Z 100)) then
    ([StError "Fuel tank volume must be between 1.0 and 100.0 gallons."], false)
  else ([], true).

Definition check_city_fuel_economy (city_fuel_economy : number)
    : list ui_message * bool :=
  if num_lt city_fuel_economy (NInt 1) || num_gt city_fuel_economy (NInt 150) then
    ([StError "City fuel economy must be between 1 and 150 MPG."], false)
  else ([], true).

Definition check_highway_fuel_economy (highway_fuel_economy : number)
    : list ui_message * bool :=
  if num_lt highway_fuel_economy (NInt 1) || num_gt highway_fuel_economy (NInt 150) then
    ([StError "Highway fuel economy must be between 1 and 150 MPG."], false)
  else ([], true).

Definition check_daysonmarket (daysonmarket : number) : list ui_message * bool :=
  if num_lt daysonmarket (NInt 0) then
    ([StError "Days on market cannot be negative."], false)
  else ([], true).

Definition check_owner_count (owner_count : number) : list ui_message * bool :=
  if num_gt owner_count (NInt 10) || num_lt owner_count (NInt 0) then
    ([StError "Value must be between 0 and 10."], false)
  else ([], true).

Definition check_savings_amount (savings_amount : number) : list ui_message * bool :=
  if num_lt savings_amount (NInt 0) then
    ([StError "Savings amount cannot be negative."], false)
  else ([], true).

Definition check_seller_rating (seller_rating : number) : list ui_message * bool :=
  if num_lt seller_rating (NInt 0) || num_gt seller_rating (NInt 5) then
    ([StError "Seller rating must be between 0 and 5."], false)
  else ([], true).

(** The first column, "Basic Info": the only place [valid_inputs] is assigned. *)
Definition basic_info (schema : list string) (w : widgets) (s : form) : form :=
  let s := number_field schema w "mileage" "Mileage"
             (Some (NInt 0)) None (NInt 50000) check_mileage s in
  let s := number_field schema w "car_age" "Car Age (years)"
             (Some (NInt 0)) (Some (NInt 100)) (NInt 5) check_car_age s in
  let s := number_field schema w "horsepower" "Horsepower (HP)"
             (Some (NInt 10)) (Some (NInt 1200)) (NInt 200) check_horsepower s in
  let s := number_field schema w "engine_displacement" "Engine Displacement (L)"
             (Some (NFloat (F64.lit 1 1))) (Some (NFloat (F64.of_Z 10)))
             (NFloat (F64.lit 25 1)) check_engine_displacement s in
  let s := number_field schema w "fuel_tank_volume" "Fuel Tank Volume (gal)"
             (Some (NFloat (F64.of_Z 1))) (Some (NFloat (F64.of_Z 100)))
             (NFloat (F64.of_Z 15)) check_fuel_tank_volume s in
  let s := number_field schema w "city_fuel_economy" "City Fuel Economy (MPG)"
             (Some (NInt 1)) (Some (NInt 150)) (NInt 20) check_city_fuel_economy s in
  let s := number_field schema w "highway_fuel_economy" "Highway Fuel Economy (MPG)"
             (Some (NInt 1)) (Some (NInt 150)) (NInt 30)
             check_highway_fuel_economy s in
  let s := number_field schema w "daysonmarket" "Days on Market"
             (Some (NInt 0)) None (NInt 30) check_daysonmarket s in
  let s := number_field schema w "owner_count" "Previous Owners"
             (Some (NInt 0)) (Some (NInt 10)) (NInt 1) check_owner_count s in
  let s := number_field schema w "savings_amount" "Savings Amount ($)"
             (Some (NInt 0)) None (NInt 0) check_savings_amount s in
  number_field schema w "seller_rating" "Seller Rating (0-5)"
    (Some (NFloat (F64.of_Z 0))) (Some (NFloat (F64.of_Z 5))) (NFloat (F64.of_Z 4))
    check_seller_rating s.

(** The second column, "Engine & Dimensions". *)
Definition engine_dimensions (schema : list string) (w : widgets) (s : form) : form :=
  let s := number_field schema w "back_legroom" "Back Legroom (in)"
             (Some (NFloat (F64.of_Z 10))) (Some (NFloat (F64.of_Z 60)))
             (NFloat (F64.of_Z 35)) no_check s in
  let s := number_field schema w "front_legroom" "Front Legroom (in)"
             (Some (NFloat (F64.of_Z 20))) (Some (NFloat (F64.of_Z 70)))
             (NFloat (F64.of_Z 40)) no_check s in
  let s := number_field schema w "height" "Height (in)"
             (Some (NFloat (F64.of_Z 30))) (Some (NFloat (F64.of_Z 120)))
             (NFloat (F64.of_Z 60)) no_check s in
  let s := number_field schema w "length" "Length (in)"
             (Some (NFloat (F64.of_Z 80))) (Some (NFloat (F64.of_Z 300)))
             (NFloat (F64.of_Z 180)) no_check s in
  let s := number_field schema w "wheelbase" "Wheelbase (in)"
             (Some (NFloat (F64.of_Z 50))) (Some (NFloat (F64.of_Z 200)))
             (NFloat (F64.of_Z 100)) no_check s in
  let s := number_field schema w "width" "Width (in)"
             (Some (NFloat (F64.of_Z 40))) (Some (NFloat (F64.of_Z 120)))
             (NFloat (F64.of_Z 70)) no_check s in
  let s := number_field schema w "maximum_seating" "Max Seating"
             (Some (NInt 1)) (Some (NInt 15)) (NInt 5) no_check s in
  let s := select_field schema w "body_type" "Body Type" body_type_options s in
  let s := select_field schema w "engine_cylinders" "Engine Cylinders"
             engine_cylinders_options s in
  let s := select_field schema w "engine_type" "Engine Type" engine_type_options s in
  select_field schema w "fuel_type" "Fuel Type" fuel_type_options s.

Definition bool_options_map_display : list (string * Z) := [("No", 0); ("Yes", 1)].

Definition flag_widgets : list (string * string) :=
  [("fleet", "Fleet Vehicle?"); ("frame_damaged", "Frame Damaged?");
   ("franchise_dealer", "Franchise Dealer?"); ("has_accidents", "Accidents Reported?");
   ("isCab", "Was a Cab/Taxi?"); ("is_new", "Is New (<2 yrs old)?");
   ("salvage", "Salvage Title?"); ("theft_title", "Theft on Title?")].

(** [d[k]] where the key is whatever a selectbox returned. *)
Definition getitem_value {V} (d : list (string * V)) (k : value) : result V :=
  match k with
  | VStr s => Dict.getitem d s
  | _ => Raise (KeyError "")
  end.

Definition flag_field (schema : list string) (w : widgets) (s : form)
    (flag : string * string) : result form :=
  let '(flag_col, flag_label) := flag in
  if in_list flag_col schema then
    let selected_display :=
      st_selectbox w flag_label (Dict.keys bool_options_map_display) in
    b ← getitem_value bool_options_map_display selected_display;
    Ok (store flag_col (VInt b) s)
  else Ok s.

(** The transmission widget shows display labels; the value stored is the
    internal code found by the reverse lookup. *)
Definition transmission_field (schema : list string) (w : widgets) (s : form) : form :=
  if in_list "transmission" schema then
    let selected_display_trans := st_selectbox w "Transmission" display_trans_opts in
    let original :=
      match selected_display_trans with
      | VStr label => VStr (original_trans_value transmission_options_map label)
      | other => other
      end in
    store "transmission" original s
  else s.

(** The third column, "Condition & Status". *)
Definition condition_status (schema : list string) (w : widgets) (s : form)
    : result form :=
  s ← for_each (flag_field schema w) flag_widgets s;
  let s := select_field schema w "listing_color" "Listing Color Group"
             listing_color_options s in
  let s := transmission_field schema w s in
  Ok (select_field schema w "wheel_system" "Wheel System" wheel_system_options s).

(** The three columns in page order. *)
Definition collect_inputs (schema : list string) (w : widgets) : result form :=
  condition_status schema w (engine_dimensions schema w (basic_info schema w form_start)).

(** *** Record assembly and the call of the model *)

Inductive call {features : Type} :=
| CallTransform (input_df : list (string * value))
| CallPredict (processed_input : features).
Arguments call features : clear implicits.

(** What one script run leaves on the page and which external calls it made. *)
Record outcome {features : Type} := {
  messages : list ui_message;
  calls : list (call features);
  formatted_price : option string
}.
Arguments outcome features : clear implicits.

(** [pd.isna(v)] for a scalar. *)
Definition isna (v : value) : bool :=
  match v with
  | VNone => true
  | VNum (NFloat f) => F64.is_nan f
  | _ => false
  end.

Definition missing_feature_warning (col_name : string) : ui_message :=
  StWarning ("Input for feature '" +:+ col_name
             +:+ "' was not collected. Using NaN or 'Unknown'.").

(** [get_exchange_rates().get(selected_currency, 1.0)]: the value returned by
    the fetch must be a dict for [.get] to exist. *)
Definition rate_lookup (table : Rates.json) (selected_currency : string)
    : result Rates.json :=
  match table with
  | Rates.JObj fields =>
      Ok (Dict.get_default fields selected_currency (Rates.JNum (NFloat (F64.of_Z 1))))
  | _ => Raise AttributeError
  end.

(** [final_price_usd * exchange_rate] for a [float64] price: a number (or a
    JSON boolean, an [int] in Python) multiplies, an [int] too large for a
    float raising [OverflowError]; any other operand ends in a [TypeError],
    at the product or, for a list, at the formatting of the array NumPy
    builds from it. *)
Definition times_rate (final_price_usd : spec_float) (exchange_rate : Rates.json)
    : result spec_float :=
  match exchange_rate with
  | Rates.JNum n => r ← float_of_number n; Ok (F64.mul final_price_usd r)
  | Rates.JBool b => Ok (F64.mul final_price_usd (F64.of_Z (if b then 1 else 0)))
  | _ => Raise TypeError
  end.

(** The formatting branch on the currency code. *)
Definition format_price (selected_currency : string) (final_price : spec_float)
    : result string :=
  if String.eqb selected_currency "JPY" then
    i ← Fmt.int_of_float final_price;
    Ok (Fmt.format_int_grouped i)
  else Ok (Fmt.format_fixed2_grouped final_price).

(** Currency conversion of the predicted price: the converted amount and its
    display string. *)
Definition convert (final_price_usd : spec_float) (selected_currency : string)
    (table : Rates.json) : result (spec_float * string) :=
  exchange_rate ← rate_lookup table selected_currency;
  final_price ← times_rate final_price_usd exchange_rate;
  formatted ← format_price selected_currency final_price;
  Ok (final_price, formatted).

Section Pipeline.

(** The collaborators outside [app.py]: the parser behind
    [pd.to_numeric] for a string ([None] when the string is not a number), the
    fitted preprocessor and model, and NumPy's [round(x, 2)]. *)
Context {features : Type}.
Variable str_to_number : string -> option number.
Variable preprocessor_transform : list (string * value) -> result features.
Variable model_predict : features -> result spec_float.
Variable round2 : spec_float -> spec_float.

(** [pd.to_numeric(v, errors='coerce')]: a number is returned as it is, a
    string is parsed, and what is not a number becomes NaN. *)
Definition to_numeric (v : value) : value :=
  match v with
  | VNum n => VNum n
  | VStr s =>
      match str_to_number s with
      | Some n => VNum n
      | None => nan
      end
  | VNone => nan
  end.

(** A value [pd.to_numeric] cannot read as a number. *)
Definition non_numeric (v : value) : bool :=
  match v with
  | VNum _ => false
  | VStr s =>
      match str_to_number s with
      | Some _ => false
      | None => true
      end
  | VNone => true
  end.

(** [d[k]] on the dictionary of widget outputs. *)
Definition getitem_collected (d : gmap string value) (k : string) : result value :=
  match d !! k with
  | Some v => Ok v
  | None => Raise (KeyError k)
  end.

(** [k in d] on the dictionary of widget outputs. *)
Definition collected (d : gmap string value) (k : string) : bool :=
  match d !! k with
  | Some _ => true
  | None => false
  end.

(** The body of [for col_name in original_feature_columns:]. The state is
    [input_df_data_final] together with the warnings shown. *)
Definition assemble_step (input_values : gmap string value)
    (st : list (string * value) * list ui_message) (col_name : string)
    : result (list (string * value) * list ui_message) :=
  let '(input_df_data_final, warnings) := st in
  if collected input_values col_name then
    v ← getitem_collected input_values col_name;
    if is_numeric_column col_name then
      Ok (Dict.set input_df_data_final col_name (to_numeric v), warnings)
    else
      Ok (Dict.set input_df_data_final col_name v, warnings)
  else
    let warnings := warnings ++ [missing_feature_warning col_name] in
    if is_numeric_column col_name then
      Ok (Dict.set input_df_data_final col_name nan, warnings)
    else
      Ok (Dict.set input_df_data_final col_name (VStr "Unknown"), warnings).

(** The value one pass of the loop body assigns to
    [input_df_data_final[col_name]]. *)
Definition assigned_value (input_values : gmap string value) (col_name : string)
    : value :=
  match input_values !! col_name with
  | Some v => if is_numeric_column col_name then to_numeric v else v
  | None => if is_numeric_column col_name then nan else VStr "Unknown"
  end.

Definition assign (input_values : gmap string value) (d : list (string * value))
    (col_name : string) : list (string * value) :=
  Dict.set d col_name (assigned_value input_values col_name).

(** Record assembly: the loop that fills [input_df_data_final]. *)
Definition assemble (schema : list string) (input_values : gmap string value)
    : result (list (string * value) * list ui_message) :=
  for_each (assemble_step input_values) schema ([], []).

(** [pd.DataFrame([d], columns=cols)] as its single row, cell by cell in
    column order; a column the record lacks is NaN, and a name listed twice in
    [cols] gives two columns of that name. *)
Definition data_frame (d : list (string * value)) (cols : list string)
    : list (string * value) :=
  map (fun col => (col, Dict.get_default d col nan)) cols.

(** [pd.to_numeric(input_df[col], errors='coerce')] on the one value of a
    column: as [to_numeric], except that an [int] outside the range of
    [int64] makes a column pandas converts to [float64]. *)
Definition series_to_numeric (v : value) : value :=
  match v with
  | VNum (NInt z) =>
      if (- 2 ^ 63 <=? z) && (z <? 2 ^ 63) then VNum (NInt z)
      else VFloat (F64.of_Z z)
  | _ => to_numeric v
  end.

(** A column name that [columns] lists more than once. *)
Definition repeated (col : string) (columns : list string) : bool :=
  (1 <? length (List.filter (String.eqb col) columns))%nat.

(** The loop over [input_df.columns] that coerces the columns listed in
    [numerical_cols]. For a name the frame has twice, [input_df[col]] is a
    frame and not a column: the test of the [if] raises [ValueError], and the
    inner [except] stores NaN in every column of that name. *)
Definition coerce_cell (columns : list string) (cell : string * value)
    : string * value :=
  let '(col, v) := cell in
  if in_list col numerical_cols then
    if repeated col columns then (col, nan)
    else if negb (isna v) then (col, series_to_numeric v) else (col, v)
  else (col, v).

Definition coerce_numerical (input_df : list (string * value)) : list (string * value) :=
  map (coerce_cell (Dict.keys input_df)) input_df.

(** The frame handed to [preprocessor.transform]. *)
Definition frame_for_preprocessor (schema : list string)
    (input_df_data_final : list (string * value)) : list (string * value) :=
  coerce_numerical (data_frame input_df_data_final schema).

(** The body of the [try] after the frame is built: transform, predict,
    round, convert and format, with the external calls made on the way. *)
Definition predict_and_format (input_df : list (string * value))
    (selected_currency : string) (table : Rates.json)
    : list (call features) * result string :=
  match preprocessor_transform input_df with
  | Raise e => ([CallTransform input_df], Raise e)
  | Ok processed_input =>
      let made := [CallTransform input_df; CallPredict processed_input] in
      match model_predict processed_input with
      | Raise e => (made, Raise e)
      | Ok prediction =>
          let final_price_usd := round2 prediction in
          (made, snd <$> convert final_price_usd selected_currency table)
      end
  end.

(** What happens under [if predict_btn:]. Assembly runs before the [try]; an
    exception there would end the script run. The [st.error] lines of the
    [except] branch are one [StPredictionError]; the progress bar, the toast
    and the display of the frame are left out. *)
Definition on_predict (schema : list string) (f : form) (selected_currency : string)
    (table : Rates.json) : result (outcome features) :=
  '(input_df_data_final, warnings) ← assemble schema (input_values_from_widgets f);
  let input_df := frame_for_preprocessor schema input_df_data_final in
  let '(made, r) := predict_and_format input_df selected_currency table in
  match r with
  | Ok formatted =>
      Ok {| messages := shown f ++ warnings; calls := made;
            formatted_price := Some formatted |}
  | Raise e =>
      Ok {| messages := shown f ++ warnings ++ [StPredictionError e]; calls := made;
            formatted_price := None |}
  end.

Definition gate_message : ui_message :=
  StError "Please correct the highlighted input errors before predicting.".

(** The script after the form pass, whatever state the form pass left: the
    gate on [valid_inputs], the Predict button and, when it was pressed, the
    prediction. *)
Definition gate_and_predict (schema : list string) (w : widgets)
    (selected_currency : string) (table : Rates.json) (f : form)
    : result (outcome features) :=
  let f :=
    if negb (valid_inputs f) then
      {| input_values_from_widgets := input_values_from_widgets f;
         valid_inputs := valid_inputs f;
         shown := shown f ++ [gate_message] |}
    else f in
  let predict_btn := st_button w "Predict Price" (negb (valid_inputs f)) in
  if predict_btn then on_predict schema f selected_currency table
  else Ok {| messages := shown f; calls := []; formatted_price := None |}.

(** One run of the script with the artifacts loaded and Reset not pressed:
    the sidebar's rate fetch, the form pass and what follows it. *)
Definition run (schema : list string) (w : widgets) (selected_currency : string)
    (rates_outcome : Rates.http_outcome) : result (outcome features) :=
  table ← Rates.get_exchange_rates rates_outcome;
  f ← collect_inputs schema w;
  gate_and_predict schema w selected_currency table f.

End Pipeline.

End App.

(** ** Start of the script: the artifacts, the sidebar and the Reset button *)

Module Startup.
Import Catalog App.

(** The exceptions of [joblib.load] the two [except] clauses tell apart;
    [text] is [str(e)]. *)
Inductive load_exn :=
| FileNotFoundError (text : string)
| OtherException (text : string).

Definition files_missing_message (e : string) : ui_message :=
  StError ("Error loading model/preprocessor/columns files: " +:+ e
           +:+ ". Ensure 'rf_model.joblib', 'preprocessor.joblib', and "
           +:+ "'original_feature_columns.joblib' are in the same directory as app.py.").

Definition unexpected_load_message (e : string) : ui_message :=
  StError ("An unexpected error occurred while loading resources: " +:+ e).

Section Load.
Context {A : Type}.

(** [joblib.load(file)] returns the object the file holds ([None] is an
    object like any other), or raises. *)
Variable joblib_load : string -> load_exn + option A.

(** The two [except] clauses of [load_resources]. *)
Definition load_failed (e : load_exn)
    : (option A * option A * option A) * list ui_message :=
  match e with
  | FileNotFoundError text => ((None, None, None), [files_missing_message text])
  | OtherException text => ((None, None, None), [unexpected_load_message text])
  end.

(** [load_resources()]: the triple returned and the messages shown. *)
Definition load_resources : (option A * option A * option A) * list ui_message :=
  match joblib_load "rf_model.joblib" with
  | inl e => load_failed e
  | inr model =>
      match joblib_load "preprocessor.joblib" with
      | inl e => load_failed e
      | inr preprocessor =>
          match joblib_load "original_feature_columns.joblib" with
          | inl e => load_failed e
          | inr original_cols => ((model, preprocessor, original_cols), [])
          end
      end
  end.

End Load.

(** [model is not None and preprocessor is not None and
    original_feature_columns is not None]: the guard of the form. *)
Definition form_shown {A} (resources : option A * option A * option A) : bool :=
  match resources with
  | (Some _, Some _, Some _) => true
  | _ => false
  end.

(** The sidebar's currency tables. *)
Definition currencies : list (string * string) :=
  [("USD", "US Dollar ($)"); ("EUR", "Euro (€)"); ("GBP", "British Pound (£)");
   ("JPY", "Japanese Yen (¥)"); ("CAD", "Canadian Dollar (CA$)");
   ("AUD", "Australian Dollar (A$)"); ("EGP", "Egyptian Pound (EGP)")].

Definition currency_symbols : list (string * string) :=
  [("USD", "$"); ("EUR", "€"); ("GBP", "£"); ("JPY", "¥"); ("CAD", "CA$");
   ("AUD", "A$"); ("EGP", "EGP")].

(** [st.selectbox("Select Currency", options=list(currencies.keys()), ...)] *)
Definition selected_currency (w : widgets) : value :=
  st_selectbox w "Select Currency" (Dict.keys currencies).

(** [currency_symbols.get(selected_currency, "$")] *)
Definition currency_symbol (selected_currency : string) : string :=
  Dict.get_default currency_symbols selected_currency "$".

(** The Reset button: [for key in list(st.session_state.keys()):
    if key not in ["theme"]: del st.session_state[key]]. *)
Definition reset_step {V} (session_state : gmap string V) (key : string)
    : gmap string V :=
  if negb (in_list key ["theme"]) then delete key session_state else session_state.

Definition reset_session {V} (session_state : gmap string V) : gmap string V :=
  fold_left reset_step (map fst (map_to_list session_state)) session_state.

End Startup.

(** ** Reference notions used to state the properties *)

Module Spec.
Import Catalog App.

(** The distinct elements of a list in the order of their first occurrence. *)
Fixpoint first_occurrences (l : list string) : list string :=
  match l with
  | [] => []
  | x :: l' => x :: filter (fun y => y ≠ x) (first_occurrences l')
  end.

(** The schema columns that have no collected value, in schema order. *)
Definition uncollected (schema : list string) (input_values : gmap string value)
    : list string :=
  filter (fun c => input_values !! c = None) schema.

(** A parser for closed examples: it reads a plain decimal integer and rejects
    every other string. *)
Definition integer_literal (s : string) : option number :=
  match NilEmpty.int_of_string s with
  | Some i => Some (NInt (Z.of_int i))
  | None => None
  end.

(** The dictionary of widget outputs has a value for exactly the schema
    columns among [cols]. *)
Definition collected_columns (schema cols : list string)
    (input_values : gmap string value) : Prop :=
  ∀ c, is_Some (input_values !! c) ↔ c ∈ schema ∧ c ∈ cols.

(** Every value in the dictionary of widget outputs satisfies [P]. *)
Definition stored_values (P : string → value → Prop)
    (input_values : gmap string value) : Prop :=
  ∀ c v, input_values !! c = Some v → P c v.

(** What a widget of the page stores for a column: a number, or a string
    for a column of [categorical_widget_map]. *)
Definition widget_value (c : string) (v : value) : Prop :=
  (∃ n, v = VNum n) ∨ (∃ o, v = VStr o ∧ Dict.mem categorical_widget_map c = true).

(** A message put on the page with [st.error] by the form. *)
Definition is_st_error (m : ui_message) : bool :=
  match m with
  | StError _ => true
  | _ => false
  end.

(** Reading a plain decimal integer, with an optional minus sign. *)
Definition read_int (s : string) : option Z :=
  match NilZero.int_of_string s with
  | Some i => Some (Z.of_int i)
  | None => None
  end.

(** Removing every occurrence of a character. *)
Fixpoint remove_char (a : ascii) (s : string) : string :=
  match s with
  | EmptyString => EmptyString
  | String c rest =>
      if Ascii.eqb c a then remove_char a rest else String c (remove_char a rest)
  end.

(** Removing the grouping commas of a formatted number. *)
Fixpoint ungroup (s : string) : string :=
  match s with
  | EmptyString => EmptyString
  | String c rest => if Ascii.eqb c "," then ungroup rest else String c (ungroup rest)
  end.

Definition is_digit (c : ascii) : bool :=
  (48 <=? nat_of_ascii c)%nat && (nat_of_ascii c <=? 57)%nat.

Fixpoint all_digits (s : string) : bool :=
  match s with
  | EmptyString => true
  | String c rest => is_digit c && all_digits rest
  end.

Fixpoint has_char (a : ascii) (s : string) : bool :=
  match s with
  | EmptyString => false
  | String c rest => Ascii.eqb c a || has_char a rest
  end.

(** The chunks between the commas of a string. *)
Fixpoint split_commas (s : string) : list string :=
  match s with
  | EmptyString => [EmptyString]
  | String c rest =>
      if Ascii.eqb c "," then EmptyString :: split_commas rest
      else
        match split_commas rest with
        | chunk :: chunks => String c chunk :: chunks
        | [] => [String c EmptyString]
        end
  end.

Definition three_digits (chunk : string) : bool :=
  (String.length chunk =? 3)%nat && all_digits chunk.

(** Digits grouped in thousands: one to three digits, then groups of exactly
    three digits, with a comma before each group. *)
Definition thousands_grouped (s : string) : bool :=
  match split_commas s with
  | first :: others =>
      (1 <=? String.length first)%nat && (String.length first <=? 3)%nat
      && all_digits first && forallb three_digits others
  | [] => false
  end.

(** A thousands-grouped integer, with no decimal places. *)
Definition grouped_integer (s : string) : Prop :=
  ∃ negative body,
    s = Fmt.sign_prefix negative +:+ body ∧
    thousands_grouped body = true.

(** A thousands-grouped number with exactly two decimal places. *)
Definition grouped_two_decimals (s : string) : Prop :=
  ∃ negative body d1 d2,
    s = Fmt.sign_prefix negative +:+ body +:+ "." +:+ String d1 (String d2 EmptyString) ∧
    thousands_grouped body = true ∧
    is_digit d1 = true ∧ is_digit d2 = true.

(** The amount a display string with two decimals denotes, in hundredths:
    without its commas and its point the string is read as an integer, so
    "-1,234.56" denotes -123456. *)
Definition read_hundredths (s : string) : option Z :=
  read_int (remove_char "." (ungroup s)).

(** [h] is the magnitude of the float [f] in hundredths, rounded to the
    nearest integer and to the even one of two nearest: [f] is [num / 2^sh]
    exactly, and [h] differs from [100 * |num| / 2^sh] by at most one half. *)
Definition nearest_hundredths (f : spec_float) (h : Z) : Prop :=
  let num := (F64.dyadic f).1 in
  let scale := 2 ^ (F64.dyadic f).2 in
  0 <= h ∧
  Z.abs (2 * (h * scale - Z.abs num * 100)) <= scale ∧
  (Z.abs (2 * (h * scale - Z.abs num * 100)) = scale → Z.even h = true).

(** An [int] in the range of [int64], or a [float]. *)
Definition fits_int64 (n : number) : bool :=
  match n with
  | NInt z => (- 2 ^ 63 <=? z) && (z <? 2 ^ 63)
  | NFloat _ => true
  end.

End Spec.

(** * Properties *)

(** ** Insertion-ordered dictionaries *)

Section DictFacts.
Context {V : Type}.
Implicit Types (d : list (string * V)) (k : string) (v : V).

Lemma dict_get_set_eq d k v : Dict.get (Dict.set d k v) k = Some v.
Proof.
  induction d as [|[k' v'] d IH]; simpl.
  - by rewrite String.eqb_refl.
  - destruct (String.eqb k' k) eqn:E; simpl; rewrite E; [done | exact IH].
Qed.

Lemma dict_get_set_ne d k k' v :
  k ≠ k' → Dict.get (Dict.set d k v) k' = Dict.get d k'.
Proof.
  intros Hne. induction d as [|[k0 v0] d IH]; simpl.
  - destruct (String.eqb_spec k k'); [done | done].
  - destruct (String.eqb_spec k0 k) as [->|Hk]; simpl.
    + destruct (String.eqb_spec k k'); [done | done].
    + destruct (String.eqb_spec k0 k'); [done | exact IH].
Qed.

Lemma dict_get_Some_keys d k v : Dict.get d k = Some v → k ∈ Dict.keys d.
Proof.
  induction d as [|[k' v'] d IH]; simpl; [done|].
  destruct (String.eqb_spec k' k) as [->|Hk]; intros H.
  - apply list_elem_of_here.
  - apply list_elem_of_further, IH, H.
Qed.

Lemma dict_get_None_keys d k : Dict.get d k = None ↔ k ∉ Dict.keys d.
Proof.
  induction d as [|[k' v'] d IH]; simpl.
  - split; [intros _; apply not_elem_of_nil | done].
  - rewrite not_elem_of_cons. destruct (String.eqb_spec k' k) as [->|Hk].
    + split; [done | intros [? _]; done].
    + rewrite IH. split; [intros ?; split; [congruence | done] | intros [_ ?]; done].
Qed.

Lemma dict_get_elem_of d k v :
  Dict.get d k = Some v → (k, v) ∈ d.
Proof.
  induction d as [|[k' v'] d IH]; simpl; [done|].
  destruct (String.eqb_spec k' k) as [->|Hne].
  - intros [= ->]. apply list_elem_of_here.
  - intros H. by apply list_elem_of_further, IH.
Qed.

Lemma dict_keys_set d k v :
  Dict.keys (Dict.set d k v) =
  if decide (k ∈ Dict.keys d) then Dict.keys d else Dict.keys d ++ [k].
Proof.
  induction d as [|[k' v'] d IH]; [done|].
  cbn [Dict.set]. destruct (String.eqb_spec k' k) as [->|Hk].
  - destruct (decide (k ∈ Dict.keys ((k, v') :: d))) as [Hin|Hin]; [done|].
    exfalso. apply Hin, list_elem_of_here.
  - change (Dict.keys ((k', v') :: Dict.set d k v))
      with (k' :: Dict.keys (Dict.set d k v)).
    rewrite IH.
    destruct (decide (k ∈ Dict.keys d)) as [Hin|Hin];
      destruct (decide (k ∈ Dict.keys ((k', v') :: d))) as [Hin'|Hin']; try done.
    + exfalso. by apply Hin', list_elem_of_further.
    + exfalso. apply elem_of_cons in Hin' as [Heq|Hin']; [by apply Hk | by apply Hin].
Qed.
End DictFacts.

(** ** Record assembly *)

Import Catalog App Spec.

Lemma first_occurrences_elem_of l x : x ∈ first_occurrences l ↔ x ∈ l.
Proof.
  induction l as [|y l IH]; simpl; [done|].
  rewrite !elem_of_cons, list_elem_of_filter, IH.
  destruct (decide (x = y)); intuition.
Qed.

Lemma first_occurrences_NoDup l : NoDup (first_occurrences l).
Proof.
  induction l as [|y l IH]; simpl; [constructor|].
  constructor.
  - rewrite list_elem_of_filter. intros [Hne _]. by apply Hne.
  - by apply NoDup_filter.
Qed.

Lemma filter_all {A} (P : A → Prop) `{!∀ x, Decision (P x)} (l : list A) :
  (∀ x, x ∈ l → P x) → filter P l = l.
Proof.
  induction l as [|z l IH]; [done|].
  intros HP. rewrite filter_cons_True by apply HP, list_elem_of_here.
  f_equal. apply IH. intros x Hx. by apply HP, list_elem_of_further.
Qed.

Lemma filter_ne_absent (l : list string) x : x ∉ l → filter (fun y => y ≠ x) l = l.
Proof. intros Hx. apply filter_all. intros y Hy ->. by apply Hx. Qed.

Lemma first_occurrences_id l : NoDup l → first_occurrences l = l.
Proof.
  induction 1 as [|y l Hy Hl IH]; simpl; [done|].
  rewrite IH. f_equal. by apply filter_ne_absent.
Qed.

Section AssemblyFacts.
Variable str_to_number : string -> option number.
Implicit Types (iv : gmap string value) (d : list (string * value)).


Lemma assemble_step_eq iv d w c :
  assemble_step str_to_number iv (d, w) c =
  Ok (assign str_to_number iv d c,
      w ++ (if collected iv c then [] else [missing_feature_warning c])).
Proof.
  unfold assemble_step, assign, assigned_value, collected, getitem_collected.
  destruct (iv !! c) as [v|]; simpl.
  - rewrite (right_id_L [] (++)). by destruct (is_numeric_column c).
  - by destruct (is_numeric_column c).
Qed.

Lemma assemble_from iv schema d w :
  for_each (assemble_step str_to_number iv) schema (d, w) =
  Ok (fold_left (assign str_to_number iv) schema d,
      w ++ map missing_feature_warning (uncollected schema iv)).
Proof.
  revert d w. induction schema as [|c schema IH]; intros d w.
  - simpl. by rewrite (right_id_L [] (++)).
  - change (for_each ?f (c :: schema) (d, w)) with (f (d, w) c ≫= for_each f schema).
    rewrite assemble_step_eq. simpl. rewrite IH. f_equal. f_equal.
    rewrite <- (assoc_L (++)). f_equal.
    unfold uncollected, collected.
    destruct (iv !! c) as [v|] eqn:E.
    + rewrite filter_cons_False by (rewrite E; done). done.
    + rewrite filter_cons_True by done. done.
Qed.

Lemma fold_keys iv schema d :
  Dict.keys (fold_left (assign str_to_number iv) schema d) =
  Dict.keys d ++ filter (fun c => c ∉ Dict.keys d) (first_occurrences schema).
Proof.
  revert d. induction schema as [|c schema IH]; intros d;
    cbn [fold_left first_occurrences].
  - by rewrite filter_nil, app_nil_r.
  - rewrite IH. generalize (assigned_value str_to_number iv c). intros v.
    unfold assign. rewrite (dict_keys_set d c).
    destruct (decide (c ∈ Dict.keys d)) as [Hin|Hin].
    + rewrite filter_cons_False by (intros Hc; by apply Hc).
      f_equal. rewrite list_filter_filter. apply list_filter_iff.
      intros x. split; [intros ?; split; [done|congruence] | intros [? _]; done].
    + rewrite filter_cons_True by done.
      rewrite <- (assoc_L (++)). simpl. f_equal. f_equal.
      rewrite list_filter_filter. apply list_filter_iff.
      intros x. rewrite elem_of_app, list_elem_of_singleton. tauto.
Qed.

Lemma fold_get_other iv schema d c :
  c ∉ schema → Dict.get (fold_left (assign str_to_number iv) schema d) c = Dict.get d c.
Proof.
  revert d. induction schema as [|x schema IH]; intros d; simpl; [done|].
  intros [Hne Hc]%not_elem_of_cons.
  rewrite IH by done. unfold assign. by apply dict_get_set_ne.
Qed.

Lemma fold_get_schema iv schema d c :
  c ∈ schema →
  Dict.get (fold_left (assign str_to_number iv) schema d) c = Some (assigned_value str_to_number iv c).
Proof.
  revert d. induction schema as [|x schema IH]; intros d; simpl.
  - by intros ?%elem_of_nil.
  - intros Hc. destruct (decide (c ∈ schema)) as [Hin|Hin].
    + by apply IH.
    + apply elem_of_cons in Hc as [->|Hc]; [|done].
      rewrite fold_get_other by done. apply dict_get_set_eq.
Qed.

End AssemblyFacts.

Lemma in_list_elem_of x (l : list string) : in_list x l = true ↔ x ∈ l.
Proof.
  unfold in_list. rewrite existsb_exists. split.
  - intros (y & Hy & ->%String.eqb_eq). by apply list_elem_of_In.
  - intros Hx. exists x. split; [by apply list_elem_of_In | apply String.eqb_refl].
Qed.

Lemma dict_mem_keys {V} (d : list (string * V)) k : Dict.mem d k = true ↔ k ∈ Dict.keys d.
Proof.
  unfold Dict.mem. destruct (Dict.get d k) as [v|] eqn:E.
  - split; [intros _; by eapply dict_get_Some_keys | done].
  - apply dict_get_None_keys in E. split; [done | intros ?; by destruct E].
Qed.

(** Membership in a list of string literals, case by case. *)
Ltac cases_elem_of H :=
  repeat (apply elem_of_cons in H as [->|H]); [.. | by apply elem_of_nil in H].

Lemma boolean_flag_numerical c :
  in_list c boolean_flags = true → in_list c numerical_cols = true.
Proof.
  intros H%in_list_elem_of. unfold boolean_flags in H.
  cases_elem_of H; reflexivity.
Qed.

Lemma categorical_not_numerical c :
  Dict.mem categorical_widget_map c = true → in_list c numerical_cols = false.
Proof.
  intros H%dict_mem_keys. cbn in H.
  cases_elem_of H; reflexivity.
Qed.

Lemma categorical_not_boolean c :
  Dict.mem categorical_widget_map c = true → in_list c boolean_flags = false.
Proof.
  intros H%dict_mem_keys. cbn in H.
  cases_elem_of H; reflexivity.
Qed.

Lemma string_app_length (a b : string) :
  String.length (a +:+ b) = (String.length a + String.length b)%nat.
Proof.
  induction a as [|c a IH]; [done|].
  change (S (String.length (a +:+ b)) = S (String.length a + String.length b)).
  by rewrite IH.
Qed.

Lemma string_app_inj_r (a b s : string) : a +:+ s = b +:+ s → a = b.
Proof.
  revert b. induction a as [|c a IH]; intros [|c' b] H.
  - done.
  - apply (f_equal String.length) in H.
    rewrite !string_app_length in H. simpl in H. lia.
  - apply (f_equal String.length) in H.
    rewrite !string_app_length in H. simpl in H. lia.
  - change (String c (a +:+ s) = String c' (b +:+ s)) in H.
    injection H as -> H. f_equal. by apply IH.
Qed.

Lemma missing_feature_warning_inj c c' :
  missing_feature_warning c = missing_feature_warning c' → c = c'.
Proof.
  unfold missing_feature_warning. intros H. injection H as H.
  apply String.app_inj in H. by apply string_app_inj_r in H.
Qed.

Lemma missing_feature_warning_elem_of c (l : list string) :
  missing_feature_warning c ∈ map missing_feature_warning l ↔ c ∈ l.
Proof.
  rewrite list_elem_of_fmap. split.
  - intros (c' & H%missing_feature_warning_inj & Hc'). by subst.
  - intros Hc. by exists c.
Qed.

Section AssemblyClaims.
Variable str_to_number : string -> option number.
Implicit Types (iv : gmap string value) (d : list (string * value)).

Lemma assemble_eq schema iv :
  assemble str_to_number schema iv =
  Ok (fold_left (assign str_to_number iv) schema [],
      map missing_feature_warning (uncollected schema iv)).
Proof. unfold assemble. by rewrite assemble_from. Qed.

(** C1. For every schema and every dictionary of collected values, record
    assembly returns a record whose keys are the schema's columns, each once,
    in the order in which the schema first lists them: no column is omitted,
    duplicated or added, whichever columns were collected. For a schema that
    lists each column once the keys are the schema itself and the record has
    as many entries as the schema has columns. *)
Theorem assemble_keys_schema schema iv :
  ∃ r w,
    assemble str_to_number schema iv = Ok (r, w) ∧
    Dict.keys r = first_occurrences schema ∧
    NoDup (Dict.keys r) ∧
    (∀ c, c ∈ Dict.keys r ↔ c ∈ schema) ∧
    (NoDup schema → Dict.keys r = schema ∧ length r = length schema).
Proof.
  eexists _, _. split; [apply assemble_eq|].
  assert (Hk : Dict.keys (fold_left (assign str_to_number iv) schema []) =
               first_occurrences schema).
  { rewrite fold_keys. simpl. apply filter_all.
    intros x _. apply not_elem_of_nil. }
  rewrite Hk. split_and!.
  - done.
  - apply first_occurrences_NoDup.
  - intros c. apply first_occurrences_elem_of.
  - intros Hnd. rewrite first_occurrences_id in * by done. split; [done|].
    rewrite <- Hk at 2. unfold Dict.keys. by rewrite length_map.
Qed.
Lemma assemble_get schema iv c :
  c ∈ schema →
  ∃ r w, assemble str_to_number schema iv = Ok (r, w) ∧
         Dict.get r c = Some (assigned_value str_to_number iv c).
Proof.
  intros Hc. eexists _, _. split; [apply assemble_eq|]. by apply fold_get_schema.
Qed.

Lemma coerce_cell_fst columns cell :
  fst (coerce_cell str_to_number columns cell) = fst cell.
Proof.
  destruct cell as [col v]. unfold coerce_cell.
  destruct (in_list col numerical_cols);
    [destruct (repeated col columns); [|destruct (negb (isna v))]|]; done.
Qed.

Lemma data_frame_keys r schema : Dict.keys (data_frame r schema) = schema.
Proof.
  unfold data_frame, Dict.keys. rewrite map_map. cbn [fst]. apply map_id.
Qed.

Lemma coerced_get columns schema r c :
  c ∈ schema →
  Dict.get (map (coerce_cell str_to_number columns) (data_frame r schema)) c =
  Some (snd (coerce_cell str_to_number columns (c, Dict.get_default r c nan))).
Proof.
  unfold data_frame.
  induction schema as [|x schema IH]; [by intros ?%elem_of_nil|].
  intros Hc. cbn [map Dict.get].
  pose proof (coerce_cell_fst columns (x, Dict.get_default r x nan)) as Hfst.
  destruct (coerce_cell str_to_number columns (x, Dict.get_default r x nan))
    as [k v] eqn:E.
  simpl in Hfst. subst k.
  destruct (String.eqb_spec x c) as [->|Hne].
  - by rewrite E.
  - apply IH. apply elem_of_cons in Hc as [?|?]; [congruence | done].
Qed.

Lemma frame_get schema r c :
  c ∈ schema →
  Dict.get (frame_for_preprocessor str_to_number schema r) c =
  Some (snd (coerce_cell str_to_number schema (c, Dict.get_default r c nan))).
Proof.
  intros Hc. unfold frame_for_preprocessor, coerce_numerical.
  rewrite data_frame_keys. by apply coerced_get.
Qed.

(** What reaches the preprocessor for a schema column that was not
    collected: the string of a categorical column survives the coercion loop,
    the one of a boolean flag does not, because the flags are listed in
    [numerical_cols]. *)
Lemma uncollected_cell_coerced iv columns c :
  str_to_number "Unknown" = None →
  iv !! c = None →
  snd (coerce_cell str_to_number columns (c, assigned_value str_to_number iv c)) =
  if Dict.mem categorical_widget_map c then VStr "Unknown" else nan.
Proof.
  intros Hp Hc. unfold assigned_value, is_numeric_column. rewrite Hc.
  destruct (Dict.mem categorical_widget_map c) eqn:Hcat; cbn [negb andb].
  - unfold coerce_cell. by rewrite (categorical_not_numerical c Hcat).
  - destruct (in_list c boolean_flags) eqn:Hb; cbn [negb andb]; unfold coerce_cell.
    + rewrite (boolean_flag_numerical c Hb).
      destruct (repeated c columns); [done|]. cbn. by rewrite Hp.
    + destruct (in_list c numerical_cols); [|done].
      by destruct (repeated c columns).
Qed.

Lemma filter_eq_NoDup (l : list string) c :
  NoDup l → c ∈ l → filter (fun x => x = c) l = [c].
Proof.
  induction 1 as [|y l Hy Hl IH]; [by intros ?%elem_of_nil|].
  intros [->|Hc]%elem_of_cons.
  - rewrite filter_cons_True by done. f_equal.
    destruct (filter (λ x, x = y) l) as [|z l'] eqn:E; [done|].
    assert (Hz : z ∈ filter (λ x, x = y) l) by (rewrite E; apply list_elem_of_here).
    apply list_elem_of_filter in Hz as [-> Hz]. done.
  - rewrite filter_cons_False by (intros ->; done). by apply IH.
Qed.

(** C2, as the code has it. For a schema without repeated columns, every
    schema column absent from the collected values reaches the preprocessor
    as the string "Unknown" when it is a categorical column, and as NaN when
    it is a numeric column or a boolean flag: assembly stores "Unknown" for a
    flag, and the coercion loop over [numerical_cols], which lists the flags,
    turns it into NaN. Exactly one warning is shown for each such column. For
    the schema mileage, horsepower, body_type with mileage 50000 and
    horsepower 200 collected, the record (and the frame) is mileage 50000,
    horsepower 200, body_type "Unknown", with one warning, for body_type. *)
Theorem uncollected_columns_at_preprocessor :
  str_to_number "Unknown" = None →
  (∀ schema iv, NoDup schema →
     ∃ r w,
       assemble str_to_number schema iv = Ok (r, w) ∧
       w = map missing_feature_warning (uncollected schema iv) ∧
       ∀ c, c ∈ schema → iv !! c = None →
         filter (fun x => x = c) (uncollected schema iv) = [c] ∧
         Dict.get (frame_for_preprocessor str_to_number schema r) c =
           Some (if Dict.mem categorical_widget_map c then VStr "Unknown" else nan)) ∧
  (let schema := ["mileage"; "horsepower"; "body_type"] in
   let iv : gmap string value :=
     <["mileage" := VInt 50000]> (<["horsepower" := VInt 200]> ∅) in
   let r := [("mileage", VInt 50000); ("horsepower", VInt 200);
             ("body_type", VStr "Unknown")] in
   assemble str_to_number schema iv = Ok (r, [missing_feature_warning "body_type"]) ∧
   frame_for_preprocessor str_to_number schema r = r).
Proof.
  intros Hp. split; [|by vm_compute].
  intros schema iv Hnd. eexists _, _. split; [apply assemble_eq|].
  split; [done|]. intros c Hc Hiv. split.
  - apply filter_eq_NoDup.
    + by apply NoDup_filter.
    + apply list_elem_of_filter. by split.
  - rewrite frame_get by done. unfold Dict.get_default.
    rewrite fold_get_schema by done. f_equal. by apply uncollected_cell_coerced.
Qed.

(** C4, as the code has it. Record assembly raises no exception, whatever the
    schema and the collected values. A numeric column whose collected value
    is not a number gets NaN, and no warning is shown for it; a column with
    no collected value gets its sentinel (NaN when numeric, "Unknown"
    otherwise) and one warning is shown for it. The warnings shown are those
    of the uncollected columns and no others. *)
Theorem assemble_degrades_without_raising schema iv :
  ∃ r w,
    assemble str_to_number schema iv = Ok (r, w) ∧
    w = map missing_feature_warning (uncollected schema iv) ∧
    (∀ c v, c ∈ schema → is_numeric_column c = true → iv !! c = Some v →
       non_numeric str_to_number v = true →
       Dict.get r c = Some nan ∧ missing_feature_warning c ∉ w) ∧
    (∀ c, c ∈ schema → iv !! c = None →
       Dict.get r c = Some (if is_numeric_column c then nan else VStr "Unknown") ∧
       missing_feature_warning c ∈ w).
Proof.
  eexists _, _. split; [apply assemble_eq|]. split; [done|]. split.
  - intros c v Hc Hnum Hiv Hv. split.
    + rewrite fold_get_schema by done. unfold assigned_value. rewrite Hiv, Hnum.
      f_equal. unfold non_numeric in Hv. unfold to_numeric.
      destruct v as [n|s|]; [done| |done].
      by destruct (str_to_number s).
    + rewrite missing_feature_warning_elem_of. unfold uncollected.
      rewrite list_elem_of_filter. intros [Hnone _]. congruence.
  - intros c Hc Hiv. split.
    + rewrite fold_get_schema by done. unfold assigned_value. by rewrite Hiv.
    + rewrite missing_feature_warning_elem_of. unfold uncollected.
      rewrite list_elem_of_filter. by split.
Qed.

End AssemblyClaims.

(** C2 as stated fails for a boolean flag: with [fleet] the only schema
    column and nothing collected, assembly stores "Unknown", and the frame
    handed to the preprocessor holds NaN. *)
Lemma boolean_flag_unknown_becomes_nan :
  in_list "fleet" boolean_flags = true ∧
  ∃ r w,
    assemble integer_literal ["fleet"] ∅ = Ok (r, w) ∧
    Dict.get r "fleet" = Some (VStr "Unknown") ∧
    Dict.get (frame_for_preprocessor integer_literal ["fleet"] r) "fleet" = Some nan ∧
    Dict.get (frame_for_preprocessor integer_literal ["fleet"] r) "fleet"
      ≠ Some (VStr "Unknown").
Proof.
  split; [done|]. eexists _, _. split; [by vm_compute|].
  split; [by vm_compute|]. split; [by vm_compute|]. by vm_compute.
Qed.

(** An instance: a flag and a categorical column left uncollected. *)
Lemma uncollected_columns_at_preprocessor_witness :
  ∃ r w,
    assemble integer_literal ["fleet"; "body_type"; "mileage"]
      {["mileage" := VInt 50000]} = Ok (r, w) ∧
    w = [missing_feature_warning "fleet"; missing_feature_warning "body_type"] ∧
    Dict.get (frame_for_preprocessor integer_literal
                ["fleet"; "body_type"; "mileage"] r) "fleet" = Some nan ∧
    Dict.get (frame_for_preprocessor integer_literal
                ["fleet"; "body_type"; "mileage"] r) "body_type"
      = Some (VStr "Unknown").
Proof.
  destruct (uncollected_columns_at_preprocessor integer_literal eq_refl) as [H _].
  destruct (H ["fleet"; "body_type"; "mileage"] {["mileage" := VInt 50000]})
    as (r & w & Hr & Hw & Hc).
  { apply (bool_decide_unpack _). by vm_compute. }
  exists r, w. split; [done|]. split; [by rewrite Hw|]. split.
  - apply (Hc "fleet"); [apply (bool_decide_unpack _); by vm_compute | done].
  - apply (Hc "body_type"); [apply (bool_decide_unpack _); by vm_compute | done].
Defined.

(** An instance: a schema of three distinct columns, one of them collected. *)
Lemma assemble_keys_schema_witness :
  ∃ r w,
    assemble integer_literal ["mileage"; "horsepower"; "body_type"]
      {["mileage" := VInt 50000]} = Ok (r, w) ∧
    Dict.keys r = ["mileage"; "horsepower"; "body_type"] ∧
    length r = 3%nat.
Proof.
  destruct (assemble_keys_schema integer_literal
              ["mileage"; "horsepower"; "body_type"] {["mileage" := VInt 50000]})
    as (r & w & Hr & _ & _ & _ & Hnd).
  destruct Hnd as [Hk Hl]; [apply (bool_decide_unpack _); by vm_compute|].
  by exists r, w.
Defined.

(** An instance: a mileage that is not a number and an uncollected body type. *)
Lemma assemble_degrades_without_raising_witness :
  ∃ r w,
    assemble integer_literal ["mileage"; "body_type"]
      {["mileage" := VStr "abc"]} = Ok (r, w) ∧
    Dict.get r "mileage" = Some nan ∧
    Dict.get r "body_type" = Some (VStr "Unknown") ∧
    (missing_feature_warning "mileage" ∉ w) ∧
    missing_feature_warning "body_type" ∈ w.
Proof.
  destruct (assemble_degrades_without_raising integer_literal
              ["mileage"; "body_type"] {["mileage" := VStr "abc"]})
    as (r & w & Hr & _ & Hnum & Hmiss).
  destruct (Hnum "mileage" (VStr "abc")) as [H1 H2];
    [apply (bool_decide_unpack _); by vm_compute | done | done | done |].
  destruct (Hmiss "body_type") as [H3 H4];
    [apply (bool_decide_unpack _); by vm_compute | done |].
  by exists r, w.
Defined.

(** C4 as stated fails on the warning: a collected value that is not a number
    is turned into NaN and nothing is shown. *)
Lemma non_numeric_value_raises_no_warning :
  is_numeric_column "mileage" = true ∧
  non_numeric integer_literal (VStr "abc") = true ∧
  ∃ r,
    assemble integer_literal ["mileage"] {["mileage" := VStr "abc"]} = Ok (r, []) ∧
    Dict.get r "mileage" = Some nan.
Proof.
  split; [by vm_compute|]. split; [by vm_compute|].
  eexists. split; by vm_compute.
Qed.

(** ** Option catalogs *)

Lemma StronglySorted_strict (l : list string) :
  StronglySorted String.le l → NoDup l → StronglySorted (strict String.le) l.
Proof.
  induction 1 as [|x l Hl IH Hx]; intros Hnd; [constructor|].
  apply NoDup_cons in Hnd as [Hxl Hnd].
  constructor; [by apply IH|].
  rewrite Forall_forall in Hx |- *. intros y Hy. split; [by apply Hx|].
  intros Hyx. apply Hxl.
  by rewrite (anti_symm String.le x y (Hx y Hy) Hyx).
Qed.

(** C5. For every raw option list, [prepare_options] with sorting returns
    strings, without duplicates, in strictly ascending lexicographic order;
    its elements are exactly the replacement string for the missing entries
    and [str] of the others, so the replacement is present whenever the
    input held a missing entry. The empty list gives the empty list, and the
    function is total. *)
Theorem prepare_options_sorted_unique (raw_list : list raw_item)
    (nan_replacement : string) :
  let out := prepare_options raw_list nan_replacement true in
  NoDup out ∧
  StronglySorted (strict String.le) out ∧
  (∀ s, s ∈ out ↔
        ∃ item, item ∈ raw_list ∧
                s = if Catalog.isna item then nan_replacement else Catalog.str item) ∧
  ((∃ item, item ∈ raw_list ∧ Catalog.isna item = true) → nan_replacement ∈ out) ∧
  prepare_options [] nan_replacement true = [].
Proof.
  cbv zeta. unfold prepare_options, sorted, list_set.
  set (options_str := map _ raw_list).
  assert (Hperm : merge_sort String.le (remove_dups options_str) ≡ₚ remove_dups options_str)
    by apply merge_sort_Permutation.
  assert (Hnd : NoDup (merge_sort String.le (remove_dups options_str))).
  { rewrite Hperm. apply NoDup_remove_dups. }
  assert (Hin : ∀ s, s ∈ merge_sort String.le (remove_dups options_str) ↔
                     ∃ item, item ∈ raw_list ∧
                       s = if Catalog.isna item then nan_replacement else Catalog.str item).
  { intros s. rewrite Hperm, elem_of_remove_dups. subst options_str.
    rewrite list_elem_of_fmap. split; intros (item & H1 & H2); exists item; done. }
  split_and!.
  - done.
  - apply StronglySorted_strict; [|done]. apply StronglySorted_merge_sort; apply _.
  - done.
  - intros (item & Hitem & Hna). apply Hin. exists item. by rewrite Hna.
  - done.
Qed.

(** An instance: the transmission list, which holds [np.nan]. *)
Lemma prepare_options_sorted_unique_witness :
  "Unknown" ∈ prepare_options transmission_opts_raw "Unknown" true ∧
  NoDup (prepare_options transmission_opts_raw "Unknown" true).
Proof.
  destruct (prepare_options_sorted_unique transmission_opts_raw "Unknown")
    as (Hnd & _ & _ & Hnull & _).
  split; [|exact Hnd]. apply Hnull. exists RawNaN. split; [|done].
  unfold transmission_opts_raw. do 3 apply list_elem_of_further.
  apply list_elem_of_here.
Defined.

(** ** Transmission code mapping *)

Section ReverseLookup.
Variable display_map : list (string * string).
Hypothesis labels_distinct : NoDup (map snd display_map).

Lemma reverse_lookup_found k selected default :
  (k, selected) ∈ display_map → reverse_lookup display_map selected default = k.
Proof.
  revert labels_distinct.
  induction display_map as [|[k0 v0] items IH]; [by intros _ ?%elem_of_nil|].
  cbn [map snd reverse_lookup]. intros [Hv0 Hnd]%NoDup_cons Hin.
  destruct (String.eqb_spec v0 selected) as [->|Hne].
  - apply elem_of_cons in Hin as [[= ->]|Hin]; [done|].
    destruct Hv0. apply list_elem_of_fmap. by exists (k, selected).
  - apply elem_of_cons in Hin as [[= -> ->]|Hin]; [done|]. by apply IH.
Qed.

Lemma reverse_lookup_absent selected default :
  selected ∉ map snd display_map → reverse_lookup display_map selected default = default.
Proof.
  clear labels_distinct.
  induction display_map as [|[k0 v0] items IH]; [done|].
  cbn [map snd reverse_lookup]. intros [Hne Hnin]%not_elem_of_cons.
  destruct (String.eqb_spec v0 selected) as [->|_]; [done | by apply IH].
Qed.

End ReverseLookup.

(** C6. On the transmission display map the reverse lookup undoes the
    display lookup: a label that some internal code maps to gives back
    exactly that code, and a label that no code maps to is returned
    unchanged. The lookup is a total function of the label. *)
Theorem transmission_reverse_lookup :
  (∀ code label,
     Dict.get transmission_options_map code = Some label →
     original_trans_value transmission_options_map label = code) ∧
  (∀ label,
     label ∉ map snd transmission_options_map →
     original_trans_value transmission_options_map label = label).
Proof.
  assert (Hnd : NoDup (map snd transmission_options_map)).
  { apply (bool_decide_unpack _). by vm_compute. }
  split.
  - intros code label H%dict_get_elem_of. by apply reverse_lookup_found.
  - intros label H. by apply reverse_lookup_absent.
Qed.

(** An instance: two labels of the map and one that is not in it. *)
Lemma transmission_reverse_lookup_witness :
  original_trans_value transmission_options_map "Automatic" = "A" ∧
  original_trans_value transmission_options_map "Manual" = "M" ∧
  original_trans_value transmission_options_map "Semi-automatic" = "Semi-automatic".
Proof.
  destruct transmission_reverse_lookup as [Hfound Habsent].
  split; [by apply Hfound|]. split; [by apply Hfound|].
  apply Habsent. apply (bool_decide_unpack _). by vm_compute.
Defined.

(** ** Number formatting *)

Lemma all_digits_string_of_uint d : all_digits (NilEmpty.string_of_uint d) = true.
Proof. induction d; simpl; try done. Qed.

Lemma all_digits_digits n : all_digits (Fmt.digits n) = true.
Proof.
  unfold Fmt.digits, NilZero.string_of_uint.
  destruct (N.to_uint n) eqn:E; try done; rewrite <- E; apply all_digits_string_of_uint.
Qed.

Lemma digits_nonempty n : Fmt.digits n ≠ EmptyString.
Proof.
  unfold Fmt.digits, NilZero.string_of_uint.
  destruct (N.to_uint n); simpl; done.
Qed.

Lemma is_digit_not_comma c : is_digit c = true → Ascii.eqb c "," = false.
Proof.
  intros H. destruct (Ascii.eqb_spec c ","%char) as [->|]; [|done].
  by vm_compute in H.
Qed.

Lemma ungroup_group3 ds : all_digits ds = true → ungroup (Fmt.group3 ds) = ds.
Proof.
  induction ds as [|d rest IH]; [done|].
  cbn [all_digits Fmt.group3]. intros [Hd Hrest]%andb_prop.
  destruct (negb _ && _); cbn [ungroup]; rewrite (is_digit_not_comma d Hd);
    cbn [ungroup Ascii.eqb]; by rewrite ?Ascii.eqb_refl, IH.
Qed.

Lemma has_char_group3 a ds :
  is_digit a = false → a ≠ ","%char → all_digits ds = true →
  has_char a (Fmt.group3 ds) = false.
Proof.
  intros Ha Hc. induction ds as [|d rest IH]; [done|].
  cbn [all_digits Fmt.group3]. intros [Hd Hrest]%andb_prop.
  assert (Hda : Ascii.eqb d a = false).
  { destruct (Ascii.eqb_spec d a) as [->|]; [congruence | done]. }
  assert (Hca : Ascii.eqb "," a = false).
  { destruct (Ascii.eqb_spec ","%char a) as [<-|]; [done | done]. }
  destruct (negb _ && _); cbn [has_char]; by rewrite Hda, ?Hca, IH.
Qed.

Lemma mod3_pred_zero (n : nat) :
  (0 < n)%nat → (n mod 3 = 0)%nat → ((n - 1) mod 3 = 2)%nat.
Proof.
  intros Hpos Hmod.
  pose proof (Nat.div_mod_eq n 3). pose proof (Nat.div_mod_eq (n - 1) 3).
  pose proof (Nat.mod_upper_bound (n - 1) 3). lia.
Qed.

Lemma mod3_pred_nonzero (n : nat) :
  (n mod 3 ≠ 0)%nat → (S ((n - 1) mod 3) = n mod 3)%nat.
Proof.
  intros Hmod.
  pose proof (Nat.div_mod_eq n 3). pose proof (Nat.div_mod_eq (n - 1) 3).
  pose proof (Nat.mod_upper_bound (n - 1) 3). pose proof (Nat.mod_upper_bound n 3). lia.
Qed.

Lemma split_commas_group3 ds :
  all_digits ds = true → ds ≠ EmptyString →
  ∃ first others,
    split_commas (Fmt.group3 ds) = first :: others ∧
    String.length first = S ((String.length ds - 1) mod 3) ∧
    all_digits first = true ∧
    forallb three_digits others = true.
Proof.
  induction ds as [|d rest IH]; [done|].
  cbn [all_digits]. intros [Hd Hrest]%andb_prop _.
  pose proof (is_digit_not_comma d Hd) as Hdc.
  destruct rest as [|d' rest'].
  { exists (String d EmptyString), []. cbn. rewrite Hdc. cbn. by rewrite Hd. }
  destruct (IH Hrest) as (f & o & Hsplit & Hlen & Hf & Ho); [done|].
  set (rest := String d' rest') in *.
  cbn [Fmt.group3].
  destruct (negb (String.length rest =? 0)%nat && (String.length rest mod 3 =? 0)%nat) eqn:E.
  - apply andb_prop in E as [_ Hmod%Nat.eqb_eq].
    exists (String d EmptyString), (f :: o).
    cbn [split_commas]. rewrite Hdc, Ascii.eqb_refl, Hsplit.
    split; [done|]. split.
    { cbn [String.length]. rewrite Nat.sub_succ, Nat.sub_0_r. by rewrite Hmod. }
    split; [cbn; by rewrite Hd|].
    cbn [forallb]. rewrite Ho, andb_true_r. unfold three_digits.
    rewrite Hf, andb_true_r. apply Nat.eqb_eq. rewrite Hlen.
    assert (0 < String.length rest)%nat by (subst rest; cbn; lia).
    by rewrite mod3_pred_zero.
  - exists (String d f), o.
    cbn [split_commas]. rewrite Hdc, Hsplit.
    split; [done|]. split.
    { cbn [String.length]. rewrite Hlen, Nat.sub_succ, Nat.sub_0_r. f_equal.
      apply mod3_pred_nonzero.
      apply andb_false_iff in E as [E|E].
      - apply negb_false_iff, Nat.eqb_eq in E. subst rest. by cbn in E.
      - by apply Nat.eqb_neq in E. }
    split; [cbn; by rewrite Hd, Hf | done].
Qed.

Lemma thousands_grouped_digits n : thousands_grouped (Fmt.group3 (Fmt.digits n)) = true.
Proof.
  destruct (split_commas_group3 (Fmt.digits n)) as (f & o & Hsplit & Hlen & Hf & Ho).
  { apply all_digits_digits. }
  { apply digits_nonempty. }
  pose proof (Nat.mod_upper_bound (String.length (Fmt.digits n) - 1) 3).
  unfold thousands_grouped. rewrite Hsplit, Hf, Ho, !andb_true_r.
  apply andb_true_intro. split; [apply Nat.leb_le | apply Nat.leb_le]; lia.
Qed.

Lemma string_app_cons c s t : String c s +:+ t = String c (s +:+ t).
Proof. reflexivity. Qed.

Lemma string_app_nil t : EmptyString +:+ t = t.
Proof. reflexivity. Qed.

Lemma ungroup_sign negative body :
  ungroup (Fmt.sign_prefix negative +:+ body) = Fmt.sign_prefix negative +:+ ungroup body.
Proof. by destruct negative. Qed.

Lemma has_char_sign negative body :
  has_char "." (Fmt.sign_prefix negative +:+ body) = has_char "." body.
Proof. by destruct negative. Qed.

Lemma format_int_grouped_shape z :
  grouped_integer (Fmt.format_int_grouped z) ∧
  has_char "." (Fmt.format_int_grouped z) = false ∧
  ungroup (Fmt.format_int_grouped z) = Fmt.str_int z.
Proof.
  unfold Fmt.format_int_grouped, Fmt.str_int. split_and!.
  - exists (z <? 0), (Fmt.group3 (Fmt.digits (Z.abs_N z))).
    split; [done | apply thousands_grouped_digits].
  - rewrite has_char_sign. apply has_char_group3; [done | done | apply all_digits_digits].
  - rewrite ungroup_sign. f_equal. apply ungroup_group3, all_digits_digits.
Qed.

Lemma digits_one_digit (k : N) :
  (k < 10)%N → ∃ d, Fmt.digits k = String d EmptyString ∧ is_digit d = true.
Proof.
  intros Hk.
  assert (H : (k = 0 ∨ k = 1 ∨ k = 2 ∨ k = 3 ∨ k = 4 ∨ k = 5 ∨ k = 6 ∨ k = 7
               ∨ k = 8 ∨ k = 9)%N) by lia.
  repeat destruct H as [->|H]; [.. | subst k]; eexists; split; reflexivity.
Qed.

Lemma two_digits_shape n :
  0 <= n < 100 →
  ∃ d1 d2, Fmt.two_digits n = String d1 (String d2 EmptyString) ∧
           is_digit d1 = true ∧ is_digit d2 = true.
Proof.
  intros Hn. unfold Fmt.two_digits.
  destruct (digits_one_digit (Z.to_N (n / 10))) as (d1 & -> & H1).
  { assert (0 <= n / 10 < 10) by (split; [apply Z.div_pos | apply Z.div_lt_upper_bound]; lia).
    lia. }
  destruct (digits_one_digit (Z.to_N (n mod 10))) as (d2 & -> & H2).
  { pose proof (Z.mod_pos_bound n 10). lia. }
  by exists d1, d2.
Qed.

Lemma format_fixed2_grouped_shape f :
  F64.is_finite f = true → grouped_two_decimals (Fmt.format_fixed2_grouped f).
Proof.
  intros Hf.
  assert (Hshape : grouped_two_decimals
            (Fmt.sign_prefix (F64.signbit f)
               +:+ Fmt.group3 (Fmt.digits (Z.to_N (Fmt.hundredths f / 100)))
               +:+ "." +:+ Fmt.two_digits (Fmt.hundredths f mod 100))).
  { destruct (two_digits_shape (Fmt.hundredths f mod 100)) as (d1 & d2 & -> & H1 & H2).
    { apply Z.mod_pos_bound. lia. }
    exists (F64.signbit f), (Fmt.group3 (Fmt.digits (Z.to_N (Fmt.hundredths f / 100)))), d1, d2.
    split; [done|]. split; [apply thousands_grouped_digits | done]. }
  destruct f; try done.
Qed.

(** [div_half_even a b] is an integer nearest to [a / b], the even one of the
    two when [a / b] lies halfway. *)
Lemma div_half_even_nearest a b :
  0 < b →
  let q := Fmt.div_half_even a b in
  Z.abs (2 * (q * b - a)) <= b ∧
  (Z.abs (2 * (q * b - a)) = b → Z.even q = true).
Proof.
  intros Hb. unfold Fmt.div_half_even.
  pose proof (Z.div_mod a b ltac:(lia)) as Hdm.
  pose proof (Z.mod_pos_bound a b Hb) as Hmod.
  destruct (Z.compare_spec (2 * (a mod b)) b) as [Heq|Hlt|Hgt]; cbv zeta.
  - destruct (Z.even (a / b)) eqn:Hev.
    + split; [nia | done].
    + split; [nia | intros _].
      rewrite Z.even_add, Hev. done.
  - split; [nia | intros H; nia].
  - split; [nia | intros H; nia].
Qed.

(** The two-decimal amount is the price in hundredths, correctly rounded:
    twice its distance to the exact value [m * 2^e * 100] is at most one. *)
Lemma hundredths_nearest s m e :
  e < 0 →
  let h := Fmt.hundredths (S754_finite s m e) in
  Z.abs (2 * (h * 2 ^ (- e) - Z.pos m * 100)) <= 2 ^ (- e).
Proof.
  intros He. cbv zeta. unfold Fmt.hundredths.
  destruct (Z.leb_spec 0 e) as [?|_]; [lia|].
  apply div_half_even_nearest. apply Z.pow_pos_nonneg; lia.
Qed.

(** [int(f)] is the exact value of [f] divided out with truncation toward
    zero. *)
Lemma int_of_float_truncates f :
  F64.is_finite f = true →
  Fmt.int_of_float f = Ok ((F64.dyadic f).1 ÷ 2 ^ (F64.dyadic f).2).
Proof.
  destruct f as [s|s| |s m e]; try done; intros _.
  unfold Fmt.int_of_float, F64.dyadic.
  destruct (Z.leb_spec 0 e) as [He|He]; cbn [fst snd].
  - rewrite Z.pow_0_r, Z.quot_1_r. f_equal. destruct s; lia.
  - assert (Hpow : 0 < 2 ^ (- e)) by (apply Z.pow_pos_nonneg; lia).
    f_equal. destruct s.
    + change (Z.neg m) with (- Z.pos m). rewrite Z.quot_opp_l by lia.
      rewrite Z.quot_div_nonneg by lia. done.
    + rewrite Z.quot_div_nonneg by lia. done.
Qed.

(** *** Reading a formatted number back *)

Lemma to_uint_not_nil n : N.to_uint n ≠ Decimal.Nil.
Proof.
  destruct n as [|p]; [done|]. cbn.
  intros H. apply (f_equal Pos.of_uint) in H.
  rewrite DecimalPos.Unsigned.of_to in H. done.
Qed.

Lemma uint_of_digits n :
  NilZero.uint_of_string (Fmt.digits n) = Some (N.to_uint n).
Proof. unfold Fmt.digits. apply NilZero.usu, to_uint_not_nil. Qed.

Lemma digits_head n :
  ∃ d rest, Fmt.digits n = String d rest ∧ Ascii.eqb d "-" = false.
Proof.
  pose proof (all_digits_digits n) as Hall. pose proof (digits_nonempty n) as Hne.
  destruct (Fmt.digits n) as [|d rest]; [done|].
  exists d, rest. split; [done|]. cbn [all_digits] in Hall.
  apply andb_prop in Hall as [Hd _].
  destruct (Ascii.eqb_spec d "-"%char) as [->|]; [by vm_compute in Hd | done].
Qed.

(** The value of a digit sequence, from its first digit and the rest. *)
Lemma of_uint_cons d :
  d ≠ Decimal.Nil →
  N.of_uint d
  = (DecimalPos.Unsigned.hd d * 10 ^ DecimalPos.Unsigned.usize (DecimalPos.Unsigned.tl d)
     + N.of_uint (DecimalPos.Unsigned.tl d))%N.
Proof.
  intros Hd. unfold N.of_uint. rewrite !DecimalPos.Unsigned.of_uint_alt.
  destruct d; [done|..]; unfold Decimal.rev at 1; cbn [Decimal.revapp];
    rewrite DecimalPos.Unsigned.of_lu_revapp;
    cbn [DecimalPos.Unsigned.hd DecimalPos.Unsigned.tl DecimalPos.Unsigned.of_lu];
    lia.
Qed.

(** Reading the concatenation of two digit strings. *)
Lemma uint_of_string_app (a b : string) da db :
  NilEmpty.uint_of_string a = Some da →
  NilEmpty.uint_of_string b = Some db →
  ∃ dab,
    NilEmpty.uint_of_string (a +:+ b) = Some dab ∧
    N.of_uint dab
    = (N.of_uint da * 10 ^ DecimalPos.Unsigned.usize db + N.of_uint db)%N ∧
    DecimalPos.Unsigned.usize dab
    = (DecimalPos.Unsigned.usize da + DecimalPos.Unsigned.usize db)%N.
Proof.
  revert da. induction a as [|c a IH]; intros da Ha Hb.
  - injection Ha as <-. exists db. rewrite string_app_nil. split; [done|].
    cbn [N.of_uint Pos.of_uint DecimalPos.Unsigned.usize]. split; lia.
  - cbn [NilEmpty.uint_of_string] in Ha.
    destruct (NilEmpty.uint_of_string a) as [da'|] eqn:Ea; [|done].
    destruct (IH da' eq_refl Hb) as (dab' & Hab & Hval & Hsize).
    rewrite string_app_cons. cbn [NilEmpty.uint_of_string]. rewrite Hab.
    apply uint_of_char_spec in Ha as Hc.
    repeat destruct Hc as [[-> ->]|Hc]; [..|destruct Hc as [-> ->]];
      (eexists; split; [reflexivity|]);
      (split;
       [ match goal with |- N.of_uint ?x = (N.of_uint ?y * _ + _)%N =>
           rewrite (of_uint_cons x), (of_uint_cons y) by done
         end;
         cbn [DecimalPos.Unsigned.hd DecimalPos.Unsigned.tl];
         rewrite Hval, Hsize, N.pow_add_r; lia
       | cbn [DecimalPos.Unsigned.usize]; lia ]).
Qed.

Lemma digits_read (n : N) :
  NilEmpty.uint_of_string (Fmt.digits n) = Some (N.to_uint n).
Proof.
  pose proof (uint_of_digits n) as H. pose proof (digits_nonempty n) as Hne.
  unfold NilZero.uint_of_string in H. by destruct (Fmt.digits n).
Qed.

Lemma one_digit_size (k : N) :
  (k < 10)%N → DecimalPos.Unsigned.usize (N.to_uint k) = 1%N.
Proof.
  intros Hk.
  assert (H : (k = 0 ∨ k = 1 ∨ k = 2 ∨ k = 3 ∨ k = 4 ∨ k = 5 ∨ k = 6 ∨ k = 7
               ∨ k = 8 ∨ k = 9)%N) by lia.
  repeat destruct H as [->|H]; [.. | subst k]; reflexivity.
Qed.

(** The digits of a quotient followed by the two digits of a remainder read
    as the number they were taken from. *)
Lemma digits_two_digits_read (q : N) (r : Z) :
  0 <= r < 100 →
  ∃ d, NilEmpty.uint_of_string (Fmt.digits q +:+ Fmt.two_digits r) = Some d ∧
       Z.of_N (N.of_uint d) = Z.of_N q * 100 + r.
Proof.
  intros Hr. unfold Fmt.two_digits.
  assert (Hhi : 0 <= r / 10 < 10)
    by (split; [apply Z.div_pos | apply Z.div_lt_upper_bound]; lia).
  assert (Hlo : 0 <= r mod 10 < 10) by (apply Z.mod_pos_bound; lia).
  destruct (uint_of_string_app _ _ _ _ (digits_read (Z.to_N (r / 10)))
              (digits_read (Z.to_N (r mod 10)))) as (d2 & H2 & V2 & S2).
  destruct (uint_of_string_app _ _ _ _ (digits_read q) H2) as (d & Hd & Vd & _).
  exists d. split; [done|].
  rewrite Vd, V2, S2, !one_digit_size, !DecimalN.Unsigned.of_to by lia.
  pose proof (Z.div_mod r 10 ltac:(lia)). change (10 ^ (1 + 1))%N with 100%N.
  change (10 ^ 1)%N with 10%N. lia.
Qed.

Lemma remove_char_app a (s t : string) :
  remove_char a (s +:+ t) = remove_char a s +:+ remove_char a t.
Proof.
  induction s as [|c s IH]; [done|].
  rewrite string_app_cons. cbn [remove_char]. rewrite IH.
  by destruct (Ascii.eqb c a).
Qed.

Lemma ungroup_app (s t : string) : ungroup (s +:+ t) = ungroup s +:+ ungroup t.
Proof.
  induction s as [|c s IH]; [done|].
  rewrite string_app_cons. cbn [ungroup]. rewrite IH.
  by destruct (Ascii.eqb c ",").
Qed.

Lemma remove_char_digits a (s : string) :
  is_digit a = false → all_digits s = true → remove_char a s = s.
Proof.
  intros Ha. induction s as [|c s IH]; [done|].
  cbn [all_digits remove_char]. intros [Hc Hs]%andb_prop.
  destruct (Ascii.eqb_spec c a) as [->|_]; [congruence|]. by rewrite IH.
Qed.

Lemma all_digits_app (s t : string) :
  all_digits (s +:+ t) = all_digits s && all_digits t.
Proof.
  induction s as [|c s IH]; [done|].
  rewrite string_app_cons. cbn [all_digits]. by rewrite IH, andb_assoc.
Qed.

Lemma all_digits_two_digits r : all_digits (Fmt.two_digits r) = true.
Proof.
  unfold Fmt.two_digits. by rewrite all_digits_app, !all_digits_digits.
Qed.

(** Reading a sign followed by digits. *)
Lemma read_int_signed (negative : bool) (ds : string) d :
  all_digits ds = true →
  NilEmpty.uint_of_string ds = Some d →
  ds ≠ EmptyString →
  read_int (Fmt.sign_prefix negative +:+ ds)
  = Some (if negative then - Z.of_N (N.of_uint d) else Z.of_N (N.of_uint d)).
Proof.
  intros Hall Hd Hne. unfold read_int.
  assert (Hz : NilZero.uint_of_string ds = Some d).
  { unfold NilZero.uint_of_string. by destruct ds. }
  destruct negative; cbn [Fmt.sign_prefix].
  - change ("-" +:+ ds) with (String "-" ds). cbn [NilZero.int_of_string].
    rewrite Ascii.eqb_refl, Hz. done.
  - rewrite string_app_nil. destruct ds as [|c rest]; [done|].
    cbn [NilZero.int_of_string]. cbn [all_digits] in Hall.
    apply andb_prop in Hall as [Hc _].
    destruct (Ascii.eqb_spec c "-"%char) as [->|_]; [by vm_compute in Hc|].
    rewrite Hz. done.
Qed.

Lemma read_int_str_int z : read_int (Fmt.str_int z) = Some z.
Proof.
  unfold Fmt.str_int.
  rewrite (read_int_signed _ _ _ (all_digits_digits _) (digits_read _)
             (digits_nonempty _)).
  rewrite DecimalN.Unsigned.of_to.
  destruct (Z.ltb_spec z 0); f_equal; lia.
Qed.

(** The two-decimal string of a finite float denotes its hundredths, with
    the sign of the float. *)
Lemma format_fixed2_reads_back f :
  F64.is_finite f = true →
  read_hundredths (Fmt.format_fixed2_grouped f)
  = Some (if F64.signbit f then - Fmt.hundredths f else Fmt.hundredths f).
Proof.
  intros Hf.
  assert (Hh : 0 <= Fmt.hundredths f).
  { destruct f as [s|s| |s m e]; try done. unfold Fmt.hundredths.
    destruct (Z.leb_spec 0 e); [|unfold Fmt.div_half_even].
    - assert (0 < 2 ^ e) by (apply Z.pow_pos_nonneg; lia). nia.
    - assert (0 <= Z.pos m * 100 / 2 ^ (- e))
        by (apply Z.div_pos; [lia | apply Z.pow_pos_nonneg; lia]).
      cbv zeta. repeat case_match; lia. }
  assert (Hr : 0 <= Fmt.hundredths f mod 100 < 100) by (apply Z.mod_pos_bound; lia).
  assert (Hread : read_hundredths
            (Fmt.sign_prefix (F64.signbit f)
               +:+ Fmt.group3 (Fmt.digits (Z.to_N (Fmt.hundredths f / 100)))
               +:+ "." +:+ Fmt.two_digits (Fmt.hundredths f mod 100))
          = Some (if F64.signbit f then - Fmt.hundredths f else Fmt.hundredths f)).
  { unfold read_hundredths.
    rewrite ungroup_sign, !ungroup_app, ungroup_group3 by apply all_digits_digits.
    assert (Hs : ∀ b t, remove_char "." (Fmt.sign_prefix b +:+ t)
                        = Fmt.sign_prefix b +:+ remove_char "." t) by (by intros []).
    rewrite Hs, !remove_char_app.
    rewrite (remove_char_digits "." (Fmt.digits _)) by (done || apply all_digits_digits).
    assert (Hu : ungroup (Fmt.two_digits (Fmt.hundredths f mod 100))
                 = Fmt.two_digits (Fmt.hundredths f mod 100)).
    { destruct (two_digits_shape _ Hr) as (d1 & d2 & -> & H1 & H2).
      cbn [ungroup]. by rewrite (is_digit_not_comma d1 H1), (is_digit_not_comma d2 H2). }
    rewrite Hu, (remove_char_digits "." (Fmt.two_digits _))
      by (done || apply all_digits_two_digits).
    change (remove_char "." (ungroup ".")) with EmptyString. rewrite string_app_nil.
    destruct (digits_two_digits_read (Z.to_N (Fmt.hundredths f / 100)) _ Hr)
      as (d & Hd & Hv).
    rewrite (read_int_signed _ _ d); [| |done|].
    - rewrite Hv, Z2N.id by (apply Z.div_pos; lia).
      pose proof (Z.div_mod (Fmt.hundredths f) 100 ltac:(lia)).
      destruct (F64.signbit f); f_equal; lia.
    - by rewrite all_digits_app, all_digits_digits, all_digits_two_digits.
    - pose proof (digits_nonempty (Z.to_N (Fmt.hundredths f / 100))).
      by destruct (Fmt.digits _). }
  destruct f; try done.
Qed.

(** The hundredths shown are the nearest ones, ties to even. *)
Lemma hundredths_is_nearest f :
  F64.is_finite f = true → nearest_hundredths f (Fmt.hundredths f).
Proof.
  unfold nearest_hundredths.
  destruct f as [s|s| |s m e]; try done; intros _; cbv zeta.
  unfold Fmt.hundredths, F64.dyadic.
  destruct (Z.leb_spec 0 e) as [He|He]; cbn [fst snd].
  - assert (0 < 2 ^ e) by (apply Z.pow_pos_nonneg; lia).
    assert (Habs : Z.abs ((if s then Z.neg m else Z.pos m) * 2 ^ e) = Z.pos m * 2 ^ e).
    { destruct s; nia. }
    rewrite Habs, Z.pow_0_r. split; [nia|]. split; [lia | intros; lia].
  - assert (Hpow : 0 < 2 ^ (- e)) by (apply Z.pow_pos_nonneg; lia).
    assert (Habs : Z.abs (if s then Z.neg m else Z.pos m) = Z.pos m) by (by destruct s).
    rewrite Habs.
    pose proof (div_half_even_nearest (Z.pos m * 100) (2 ^ (- e)) Hpow) as [Hn Ht].
    split; [|by split].
    clear Hn Ht. unfold Fmt.div_half_even.
    assert (0 <= Z.pos m * 100 / 2 ^ (- e)) by (apply Z.div_pos; lia).
    cbv zeta. repeat case_match; lia.
Qed.





(** C10. For "JPY" the amount shown is the converted price truncated toward
    zero, not rounded to the nearest integer: for every finite price the
    string is the grouping of [int(p)], the exact value of [p] divided out
    with truncation toward zero, and its digits are those of that integer.
    A price of 15000.9 is shown as "15,000". *)
Theorem jpy_amount_is_truncated :
  (∀ p, F64.is_finite p = true →
     let z := (F64.dyadic p).1 ÷ 2 ^ (F64.dyadic p).2 in
     Fmt.int_of_float p = Ok z ∧
     format_price "JPY" p = Ok (Fmt.format_int_grouped z) ∧
     ungroup (Fmt.format_int_grouped z) = Fmt.str_int z) ∧
  format_price "JPY" (F64.lit 150009 1) = Ok "15,000".
Proof.
  split; [|by vm_compute].
  intros p Hp z. split_and!.
  - by apply int_of_float_truncates.
  - unfold format_price. cbn [String.eqb]. 
    change (("JPY" =? "JPY")%string) with true. cbn iota.
    by rewrite (int_of_float_truncates _ Hp).
  - apply format_int_grouped_shape.
Qed.

(** An instance: a negative price, truncated toward zero. *)
Lemma jpy_amount_is_truncated_witness :
  format_price "JPY" (SFopp (F64.lit 12345678 1)) = Ok "-1,234,567" ∧
  Fmt.int_of_float (SFopp (F64.lit 12345678 1)) = Ok (-1234567).
Proof.
  destruct jpy_amount_is_truncated as [H _].
  destruct (H (SFopp (F64.lit 12345678 1)) eq_refl) as (Hi & Hf & _).
  split; [exact Hf | exact Hi].
Defined.

(** ** The exchange-rate fetch *)

(** C8. The fetch never raises: every outcome of the remote call gives a
    table. A network failure, a parse failure and a response that does not
    indicate success all give the fallback table, which has a finite positive
    rate for each of USD, EUR, GBP, JPY, CAD, AUD and EGP. A successful
    response whose rates lack EGP is returned with EGP set to 50 and its
    other rates untouched. *)
Theorem get_exchange_rates_total :
  (∀ o, ∃ table, Rates.get_exchange_rates o = Ok table) ∧
  (∀ o,
     o = Rates.NetworkFailure ∨ o = Rates.ParseFailure ∨
     (∃ data, o = Rates.Parsed data ∧ Rates.indicates_success data = false) →
     Rates.get_exchange_rates o = Ok Rates.fallback_rates) ∧
  (∀ c, c ∈ ["USD"; "EUR"; "GBP"; "JPY"; "CAD"; "AUD"; "EGP"] →
        Rates.has_rate Rates.fallback_rates c = true) ∧
  (∀ data rates,
     Rates.indicates_success data = true →
     Rates.subscript data "rates" = Ok (Rates.JObj rates) →
     Dict.mem rates "EGP" = false →
     ∃ rates',
       Rates.get_exchange_rates (Rates.Parsed data) = Ok (Rates.JObj rates') ∧
       Dict.get rates' "EGP" = Some (Rates.JNum (NInt 50)) ∧
       ∀ c, c ≠ "EGP" → Dict.get rates' c = Dict.get rates c).
Proof.
  split_and!.
  - intros o. unfold Rates.get_exchange_rates, try_except.
    destruct (Rates.fetch_live o); eauto.
  - intros o [->|[->|(data & -> & Hs)]]; [done | done |].
    unfold Rates.get_exchange_rates, Rates.fetch_live, Rates.indicates_success in *.
    cbn [Rates.requests_get_json mbind result_bind].
    destruct (Rates.subscript data "result") as [r|e]; [|done].
    cbn [mbind result_bind]. by rewrite Hs.
  - intros c Hc. cases_elem_of Hc; reflexivity.
  - intros data rates Hs Hrates Hegp. exists (Dict.set rates "EGP" (Rates.JNum (NInt 50))).
    split_and!.
    + unfold Rates.get_exchange_rates, Rates.fetch_live, Rates.indicates_success in *.
      cbn [Rates.requests_get_json mbind result_bind].
      destruct (Rates.subscript data "result") as [r|e]; [|done].
      cbn [mbind result_bind]. rewrite Hs, Hrates.
      cbn [mbind result_bind Rates.contains]. by rewrite Hegp.
    + apply dict_get_set_eq.
    + intros c Hc. by apply dict_get_set_ne.
Qed.

(** An instance: a response reporting an error, and a successful one
    without EGP. *)
Lemma get_exchange_rates_total_witness :
  Rates.get_exchange_rates
    (Rates.Parsed (Rates.JObj [("result", Rates.JStr "error")]))
    = Ok Rates.fallback_rates ∧
  Rates.has_rate Rates.fallback_rates "EGP" = true ∧
  ∃ rates',
    Rates.get_exchange_rates
      (Rates.Parsed
         (Rates.JObj [("result", Rates.JStr "success");
                      ("rates", Rates.JObj [("USD", Rates.JNum (NInt 1))])]))
      = Ok (Rates.JObj rates') ∧
    Dict.get rates' "EGP" = Some (Rates.JNum (NInt 50)).
Proof.
  destruct get_exchange_rates_total as (_ & Hfail & Hrate & Hegp).
  split.
  { apply Hfail. right. right. eexists. split; [reflexivity | reflexivity]. }
  split.
  { apply Hrate. apply (bool_decide_unpack _). by vm_compute. }
  destruct (Hegp (Rates.JObj [("result", Rates.JStr "success");
                              ("rates", Rates.JObj [("USD", Rates.JNum (NInt 1))])])
              [("USD", Rates.JNum (NInt 1))] eq_refl eq_refl eq_refl)
    as (rates' & H1 & H2 & _).
  exists rates'. by split.
Defined.

(** ** The form pass and the Predict gate *)

(** What the script receives from a number input is an entry the widget
    accepted, or the default. *)
Lemma st_number_input_cases w label lo hi value (P : number → Prop) :
  (∀ n, enterable n = true → within_bounds lo hi n = true → P n) →
  P value →
  P (st_number_input w label lo hi value).
Proof.
  intros Haccepted Hdefault. unfold st_number_input.
  destruct (enterable (number_input w label)) eqn:He; [|done].
  destruct (within_bounds lo hi (number_input w label)) eqn:Hb; [|done].
  by apply Haccepted.
Qed.

Lemma num_lt_int x y : num_lt (NInt x) (NInt y) = (x <? y).
Proof.
  unfold num_lt, num_compare, Z.ltb. by destruct (x ?= y).
Qed.

Lemma num_gt_int x y : num_gt (NInt x) (NInt y) = (y <? x).
Proof. apply num_lt_int. Qed.

(** The comparisons of an [int] with the float bounds of the form are exact. *)
Lemma num_lt_int_float z (f : spec_float) n sh :
  F64.is_finite f = true → F64.dyadic f = (n, sh) →
  num_lt (NInt z) (NFloat f) = (z * 2 ^ sh <? n) ∧
  num_gt (NInt z) (NFloat f) = (n <? z * 2 ^ sh).
Proof.
  intros Hfin Hd. unfold num_gt, num_lt, num_compare, F64.compare_Z.
  destruct f as [s|s| |s m e]; try done; rewrite Hd; cbn [fmap option_fmap option_map];
    unfold Z.ltb; rewrite (Z.compare_antisym (z * 2 ^ sh) n);
    by destruct (z * 2 ^ sh ?= n).
Qed.

Lemma digits2_pos_size m : digits2_pos m = Pos.size m.
Proof. induction m as [m IH|m IH|]; cbn; by rewrite ?IH. Qed.

(** The mantissa of a binary64 value has at most 53 bits. *)
Lemma mantissa_bound m e :
  bounded F64.prec F64.emax m e = true → Z.pos m < 2 ^ 53.
Proof.
  unfold bounded, canonical_mantissa. intros [Hc _]%andb_prop.
  apply Z.eqb_eq in Hc. rewrite digits2_pos_size in Hc.
  assert (Hsize : Z.pos (Pos.size m) <= 53).
  { unfold fexp, F64.prec, F64.emax, emin in Hc. lia. }
  pose proof (Pos.size_gt m) as Hgt.
  assert (Hpow : Z.pos (2 ^ Pos.size m) = 2 ^ Z.pos (Pos.size m))
    by (by rewrite Pos2Z.inj_pow).
  assert (2 ^ Z.pos (Pos.size m) <= 2 ^ 53) by (apply Z.pow_le_mono_r; lia).
  lia.
Qed.

(** The seller rating is created with the float bounds 0.0 and 5.0 and
    checked against the integers 0 and 5: a number within the former passes
    the latter. *)
Lemma seller_rating_in_bounds n :
  enterable n = true →
  within_bounds (Some (NFloat (F64.of_Z 0))) (Some (NFloat (F64.of_Z 5))) n = true →
  check_seller_rating n = ([], true).
Proof.
  intros He Hb. unfold within_bounds in Hb.
  apply andb_prop in Hb as [Hlo%negb_true_iff Hhi%negb_true_iff].
  assert (Hlo' : num_lt n (NInt 0) = false ∧ num_gt n (NInt 5) = false);
    [|unfold check_seller_rating; by destruct Hlo' as [-> ->]].
  destruct n as [z|f].
  - destruct (num_lt_int_float z (F64.of_Z 0) 0 0 eq_refl eq_refl) as [Hl _].
    destruct (num_lt_int_float z (F64.of_Z 5) 5629499534213120 50 eq_refl)
      as [_ Hg]; [by vm_compute|].
    rewrite Hl in Hlo. rewrite Hg in Hhi.
    rewrite num_lt_int, num_gt_int.
    change (2 ^ 50) with 1125899906842624 in Hhi. split; lia.
  - cbn [enterable] in He. apply andb_prop in He as [Hfin Hvalid].
    destruct f as [s|s| |s m e]; try done.
    change (F64.of_Z 0) with (S754_zero false) in Hlo.
    change (F64.of_Z 5) with (S754_finite false 5629499534213120 (-50)) in Hhi.
    unfold num_gt, num_lt, num_compare in *.
    cbn [valid_binary] in Hvalid. apply mantissa_bound in Hvalid.
    destruct s; [by cbn in Hlo|]. clear Hlo.
    cbn [SFcompare] in Hhi. cbn [F64.compare_Z F64.dyadic fmap option_fmap option_map].
    split.
    * destruct (Z.leb_spec 0 e); cbn [fst snd]; [|done].
      assert (0 < 2 ^ e) by (apply Z.pow_pos_nonneg; lia).
      destruct (Z.compare_spec (0 * 2 ^ 0) (Z.pos m * 2 ^ e)); [done | done | nia].
    * destruct (Z.leb_spec 0 e) as [He|He]; cbn [fst snd].
      -- destruct (Z.compare_spec (-50) e) as [?|?|?]; [lia| |lia].
         done.
      -- destruct (Z.compare_spec (-50) e) as [<-|Hlt|Hgt].
         ++ change (- -50) with 50. change (2 ^ 50) with 1125899906842624.
            exact Hhi.
         ++ done.
         ++ assert (Hpow : 2 ^ 51 <= 2 ^ (- e)) by (apply Z.pow_le_mono_r; lia).
            change (2 ^ 51) with 2251799813685248 in Hpow.
            change (2 ^ 53) with 9007199254740992 in Hvalid.
            destruct (Z.compare_spec (5 * 2 ^ (- e)) (Z.pos m)); [done | lia | done].
Qed.

Lemma number_field_valid schema w col label lo hi value check s :
  valid_inputs (number_field schema w col label lo hi value check s) =
  valid_inputs s
  && (negb (in_list col schema) || snd (check (st_number_input w label lo hi value))).
Proof.
  unfold number_field.
  destruct (in_list col schema); cbn [negb orb].
  - by destruct (check (st_number_input w label lo hi value)).
  - by rewrite andb_true_r.
Qed.

Lemma number_field_shown schema w col label lo hi value check s m :
  m ∈ shown s ∨
  (in_list col schema = true ∧
   m ∈ fst (check (st_number_input w label lo hi value))) →
  m ∈ shown (number_field schema w col label lo hi value check s).
Proof.
  unfold number_field. intros [Hm|[Hin Hm]].
  - destruct (in_list col schema); [|done].
    destruct (check (st_number_input w label lo hi value)). cbn.
    apply elem_of_app. by left.
  - rewrite Hin. destruct (check (st_number_input w label lo hi value)). cbn in *.
    apply elem_of_app. by right.
Qed.

Lemma number_field_no_check_shown schema w col label lo hi value s :
  shown (number_field schema w col label lo hi value no_check s) = shown s.
Proof.
  unfold number_field, no_check. destruct (in_list col schema); [|done].
  cbn [shown]. apply app_nil_r.
Qed.

Lemma select_field_valid schema w col label options s :
  valid_inputs (select_field schema w col label options s) = valid_inputs s.
Proof. unfold select_field. by destruct (in_list col schema). Qed.

Lemma select_field_shown schema w col label options s :
  shown (select_field schema w col label options s) = shown s.
Proof. unfold select_field. by destruct (in_list col schema). Qed.

Lemma transmission_field_valid schema w s :
  valid_inputs (transmission_field schema w s) = valid_inputs s.
Proof. unfold transmission_field. by destruct (in_list "transmission" schema). Qed.

Lemma transmission_field_shown schema w s :
  shown (transmission_field schema w s) = shown s.
Proof. unfold transmission_field. by destruct (in_list "transmission" schema). Qed.

(** The selectbox of a flag returns "No" or "Yes", so the subscript of
    [bool_options_map_display] finds a value. *)
Lemma flag_field_ok schema w s flag :
  ∃ s', flag_field schema w s flag = Ok s' ∧
        valid_inputs s' = valid_inputs s ∧ shown s' = shown s.
Proof.
  destruct flag as [flag_col flag_label]. unfold flag_field.
  destruct (in_list flag_col schema); [|by exists s].
  unfold st_selectbox. cbn [Dict.keys map fst bool_options_map_display].
  destruct (selected_index w flag_label) as [|[|n]]; cbn; eauto.
Qed.

Lemma flags_ok schema w flags s :
  ∃ s', for_each (flag_field schema w) flags s = Ok s' ∧
        valid_inputs s' = valid_inputs s ∧ shown s' = shown s.
Proof.
  revert s. induction flags as [|flag flags IH]; intros s; [by exists s|].
  destruct (flag_field_ok schema w s flag) as (s1 & H1 & Hv1 & Hs1).
  destruct (IH s1) as (s2 & H2 & Hv2 & Hs2).
  exists s2. cbn [for_each]. rewrite H1. cbn [mbind result_bind].
  split; [done|]. split; congruence.
Qed.

(** The form pass never raises; [valid_inputs] is decided by the first
    column, and the messages of the first column stay on the page. *)
Lemma collect_inputs_ok schema w :
  ∃ f, collect_inputs schema w = Ok f ∧
       valid_inputs f = valid_inputs (basic_info schema w form_start) ∧
       shown f = shown (basic_info schema w form_start).
Proof.
  unfold collect_inputs, condition_status.
  set (s1 := engine_dimensions schema w (basic_info schema w form_start)).
  destruct (flags_ok schema w flag_widgets s1) as (s2 & H2 & Hv2 & Hs2).
  rewrite H2. cbn [mbind result_bind]. eexists. split; [done|].
  repeat first [ rewrite select_field_valid | rewrite transmission_field_valid
               | rewrite select_field_shown | rewrite transmission_field_shown ].
  rewrite Hv2, Hs2. subst s1. unfold engine_dimensions.
  rewrite !select_field_valid, !select_field_shown.
  rewrite !number_field_valid. unfold no_check. cbn [snd].
  rewrite !orb_true_r, !andb_true_r. split; [done|].
  by rewrite !number_field_no_check_shown.
Qed.

(** Every range check of the first column passes on what its widget returns:
    the widget is created with the bounds the check tests, so the form pass
    leaves [valid_inputs] at [True]. *)
Lemma basic_info_valid schema w :
  valid_inputs (basic_info schema w form_start) = true.
Proof.
  unfold basic_info. rewrite !number_field_valid. cbn [valid_inputs form_start andb].
  repeat (apply andb_true_intro; split);
    (destruct (in_list _ schema); [cbn [negb orb] | done]);
    apply st_number_input_cases; try reflexivity; intros n He Hb.
  - unfold check_mileage. by repeat case_match.
  - unfold check_car_age. by repeat case_match.
  - unfold check_horsepower. unfold within_bounds in Hb.
    apply andb_prop in Hb as [->%negb_true_iff ->%negb_true_iff]. by repeat case_match.
  - unfold check_engine_displacement. unfold within_bounds in Hb.
    apply andb_prop in Hb as [->%negb_true_iff ->%negb_true_iff]. by repeat case_match.
  - unfold check_fuel_tank_volume. unfold within_bounds in Hb.
    by apply andb_prop in Hb as [->%negb_true_iff ->%negb_true_iff].
  - unfold check_city_fuel_economy. unfold within_bounds in Hb.
    by apply andb_prop in Hb as [->%negb_true_iff ->%negb_true_iff].
  - unfold check_highway_fuel_economy. unfold within_bounds in Hb.
    by apply andb_prop in Hb as [->%negb_true_iff ->%negb_true_iff].
  - unfold check_daysonmarket. unfold within_bounds in Hb.
    by apply andb_prop in Hb as [->%negb_true_iff _].
  - unfold check_owner_count. unfold within_bounds in Hb.
    by apply andb_prop in Hb as [->%negb_true_iff ->%negb_true_iff].
  - unfold check_savings_amount. unfold within_bounds in Hb.
    by apply andb_prop in Hb as [->%negb_true_iff _].
  - by rewrite seller_rating_in_bounds.
Qed.

Lemma basic_info_shown_horsepower schema w m :
  in_list "horsepower" schema = true →
  m ∈ fst (check_horsepower
             (st_number_input w "Horsepower (HP)" (Some (NInt 10)) (Some (NInt 1200))
                (NInt 200))) →
  m ∈ shown (basic_info schema w form_start).
Proof.
  intros Hin Hm. unfold basic_info.
  do 8 (apply number_field_shown; left).
  apply number_field_shown. right. by split.
Qed.

(** *** What the form stores for a categorical column *)

Lemma number_field_lookup_ne schema w col label lo hi value check s c :
  c ≠ col →
  input_values_from_widgets (number_field schema w col label lo hi value check s) !! c
  = input_values_from_widgets s !! c.
Proof.
  intros Hne. unfold number_field. destruct (in_list col schema); [|done].
  destruct (check (st_number_input w label lo hi value)). cbn. by rewrite lookup_insert_ne.
Qed.

Lemma select_field_lookup_ne schema w col label options s c :
  c ≠ col →
  input_values_from_widgets (select_field schema w col label options s) !! c
  = input_values_from_widgets s !! c.
Proof.
  intros Hne. unfold select_field, store. destruct (in_list col schema); [|done].
  cbn. by rewrite lookup_insert_ne.
Qed.


Lemma transmission_field_lookup_ne schema w s c :
  c ≠ "transmission" →
  input_values_from_widgets (transmission_field schema w s) !! c
  = input_values_from_widgets s !! c.
Proof.
  intros Hne. unfold transmission_field, store.
  destruct (in_list "transmission" schema); [|done].
  cbn. by rewrite lookup_insert_ne.
Qed.

Lemma flags_lookup_ne schema w flags s s' c :
  for_each (flag_field schema w) flags s = Ok s' →
  c ∉ map fst flags →
  input_values_from_widgets s' !! c = input_values_from_widgets s !! c.
Proof.
  revert s. induction flags as [|[flag_col flag_label] flags IH]; intros s.
  - by intros [= ->].
  - cbn [for_each map fst]. intros H [Hne Hc]%not_elem_of_cons.
    destruct (flag_field schema w s (flag_col, flag_label)) as [s1|e] eqn:E; [|done].
    cbn [mbind result_bind] in H. rewrite (IH s1 H Hc).
    unfold flag_field in E. destruct (in_list flag_col schema); [|by injection E as <-].
    destruct (getitem_value _ _) as [b|]; [|done].
    cbn [mbind result_bind] in E. injection E as <-.
    unfold store. cbn. by rewrite lookup_insert_ne.
Qed.

(** A selectbox over a non-empty option list returns one of the options. *)
Lemma st_selectbox_in_options w label options :
  options ≠ [] → ∃ o, st_selectbox w label options = VStr o ∧ o ∈ options.
Proof.
  intros Hne. unfold st_selectbox.
  destruct (options !! selected_index w label) as [o|] eqn:E.
  - exists o. split; [done|]. by eapply list_elem_of_lookup_2.
  - destruct options as [|o options]; [done|]. exists o. split; [done|].
    apply list_elem_of_here.
Qed.


Ltac frame_lookup :=
  repeat first
    [ rewrite select_field_lookup_ne by done
    | rewrite number_field_lookup_ne by done
    | rewrite transmission_field_lookup_ne by done ].




(** *** The categorical values of the assembled record *)



Section DomainClaim.
Variable str_to_number : string -> option number.


End DomainClaim.



Lemma get_exchange_rates_ok o : ∃ table, Rates.get_exchange_rates o = Ok table.
Proof.
  unfold Rates.get_exchange_rates, try_except.
  destruct (Rates.fetch_live o); eauto.
Qed.

Lemma number_field_lookup_eq schema w col label lo hi value check s :
  in_list col schema = true →
  input_values_from_widgets (number_field schema w col label lo hi value check s) !! col
  = Some (VNum (st_number_input w label lo hi value)).
Proof.
  intros Hin. unfold number_field. rewrite Hin.
  destruct (check (st_number_input w label lo hi value)). cbn. apply lookup_insert_eq.
Qed.

(** What the form stores for the horsepower. *)
Lemma horsepower_stored schema w :
  "horsepower" ∈ schema →
  ∃ f, collect_inputs schema w = Ok f ∧
    input_values_from_widgets f !! "horsepower"
    = Some (VNum (st_number_input w "Horsepower (HP)" (Some (NInt 10))
                    (Some (NInt 1200)) (NInt 200))).
Proof.
  intros Hin%in_list_elem_of.
  unfold collect_inputs, condition_status.
  set (s1 := engine_dimensions schema w (basic_info schema w form_start)).
  destruct (flags_ok schema w flag_widgets s1) as (s2 & H2 & _ & _).
  rewrite H2. cbn [mbind result_bind].
  pose proof (fun c => flags_lookup_ne schema w flag_widgets s1 s2 c H2) as Hflags.
  eexists. split; [done|]. frame_lookup.
  rewrite Hflags by (apply (bool_decide_unpack _); by vm_compute).
  subst s1. unfold engine_dimensions, basic_info. frame_lookup.
  by apply number_field_lookup_eq.
Qed.

Lemma number_field_error_flag schema w col label lo hi value check s :
  (∀ v, snd (check v) = negb (existsb is_st_error (fst (check v)))) →
  valid_inputs s = negb (existsb is_st_error (shown s)) →
  valid_inputs (number_field schema w col label lo hi value check s)
  = negb (existsb is_st_error
            (shown (number_field schema w col label lo hi value check s))).
Proof.
  intros Hcheck Hs. unfold number_field. destruct (in_list col schema); [|done].
  specialize (Hcheck (st_number_input w label lo hi value)).
  destruct (check (st_number_input w label lo hi value)) as [msgs ok]. cbn in *.
  by rewrite existsb_app, negb_orb, Hs, Hcheck.
Qed.

Ltac check_cases :=
  intros v; repeat case_match; reflexivity.

(** [valid_inputs] is cleared exactly when the form has shown an [st.error]. *)
Lemma collect_inputs_error_flag schema w :
  ∃ f, collect_inputs schema w = Ok f ∧
       valid_inputs f = negb (existsb is_st_error (shown f)).
Proof.
  destruct (collect_inputs_ok schema w) as (f & Hf & Hv & Hs).
  exists f. split; [done|]. rewrite Hv, Hs. unfold basic_info.
  repeat (apply number_field_error_flag;
          [unfold check_mileage, check_car_age, check_horsepower,
             check_engine_displacement, check_fuel_tank_volume,
             check_city_fuel_economy, check_highway_fuel_economy,
             check_daysonmarket, check_owner_count, check_savings_amount,
             check_seller_rating; check_cases |]).
  reflexivity.
Qed.

(** The page never shows a validation error: the widgets keep every number
    within the bounds the checks test. *)
Lemma collect_inputs_valid schema w :
  ∃ f, collect_inputs schema w = Ok f ∧
       valid_inputs f = true ∧ ∀ text, StError text ∉ shown f.
Proof.
  destruct (collect_inputs_error_flag schema w) as (f & Hf & Hflag).
  destruct (collect_inputs_ok schema w) as (f' & Hf' & Hv & _).
  assert (f' = f) as -> by congruence.
  rewrite basic_info_valid in Hv. exists f. split; [done|]. split; [done|].
  intros text Hin. rewrite Hv in Hflag. symmetry in Hflag.
  apply negb_true_iff in Hflag.
  assert (Hex : existsb is_st_error (shown f) = true); [|congruence].
  apply existsb_exists. exists (StError text). split; [|done].
  by apply list_elem_of_In.
Qed.

Section GateClaims.
Context {features : Type}.
Variable str_to_number : string -> option number.
Variable preprocessor_transform : list (string * value) -> result features.
Variable model_predict : features -> result spec_float.
Variable round2 : spec_float -> spec_float.

(** While [valid_inputs] is [False] the button is disabled and nothing is
    called, whatever the state the form pass left. *)
Lemma gate_blocks schema w selected_currency table f :
  valid_inputs f = false →
  gate_and_predict str_to_number preprocessor_transform model_predict round2
    schema w selected_currency table f =
  Ok {| messages := shown f ++ [gate_message]; calls := []; formatted_price := None |}.
Proof.
  intros Hv. unfold gate_and_predict. rewrite Hv. cbn [negb]. unfold st_button. by cbn.
Qed.

(** With [valid_inputs] at [True] and the button pressed, the preprocessor is
    called. *)
Lemma gate_passes schema w selected_currency table f :
  valid_inputs f = true →
  button_clicked w "Predict Price" = true →
  ∃ out input_df rest,
    gate_and_predict str_to_number preprocessor_transform model_predict round2
      schema w selected_currency table f = Ok out ∧
    calls out = CallTransform input_df :: rest.
Proof.
  intros Hvalid Hclick. unfold gate_and_predict. rewrite Hvalid. cbn [negb].
  unfold st_button. rewrite ?Hvalid. cbn [negb]. rewrite Hclick.
  unfold on_predict. rewrite assemble_eq. cbn [mbind result_bind].
  unfold predict_and_format.
  destruct (preprocessor_transform _) as [processed_input|e].
  - destruct (model_predict processed_input) as [prediction|e].
    + destruct (convert (round2 prediction) selected_currency table) as [[amount p]|e];
        cbn [fmap result_fmap snd]; by eexists _, _, _.
    + by eexists _, _, _.
  - by eexists _, _, _.
Qed.

(** C9, as the page has it. With horsepower in the schema, an entry of 700
    is what the script receives: the high-value warning is shown,
    [valid_inputs] stays [True], and a press on Predict calls the
    preprocessor. A value below 10 or above 1200 never reaches the script,
    because the widget is created with these bounds: the number stored for
    the horsepower is always within them, the form shows no validation error
    and never clears [valid_inputs]. The range check of the script does
    reject every number outside the bounds it is applied to, and while
    [valid_inputs] is [False] the gate message is shown and neither the
    preprocessor nor the model is called, whether or not the button was
    pressed. *)
Theorem horsepower_validation_gate :
  (∀ schema w,
     "horsepower" ∈ schema →
     number_input w "Horsepower (HP)" = NInt 700 →
     ∃ f, collect_inputs schema w = Ok f ∧
       input_values_from_widgets f !! "horsepower" = Some (VInt 700) ∧
       StWarning "High horsepower: This is above typical values for most cars."
         ∈ shown f ∧
       valid_inputs f = true ∧
       (button_clicked w "Predict Price" = true →
        ∀ selected_currency o,
          ∃ out input_df rest,
            run str_to_number preprocessor_transform model_predict round2
              schema w selected_currency o = Ok out ∧
            calls out = CallTransform input_df :: rest)) ∧
  (∀ schema w,
     "horsepower" ∈ schema →
     ∃ f n, collect_inputs schema w = Ok f ∧
       input_values_from_widgets f !! "horsepower" = Some (VNum n) ∧
       num_lt n (NInt 10) = false ∧ num_gt n (NInt 1200) = false ∧
       valid_inputs f = true ∧
       (∀ text, StError text ∉ shown f)) ∧
  (∀ n,
     num_lt n (NInt 10) = true ∨ num_gt n (NInt 1200) = true →
     check_horsepower n = ([StError "Horsepower must be between 10 and 1200."], false)) ∧
  (∀ schema w selected_currency table f,
     valid_inputs f = false →
     gate_and_predict str_to_number preprocessor_transform model_predict round2
       schema w selected_currency table f =
     Ok {| messages := shown f ++ [gate_message]; calls := [];
           formatted_price := None |}).
Proof.
  split_and!.
  - intros schema w Hin Hhp.
    destruct (horsepower_stored schema w Hin) as (f & Hf & Hstored).
    destruct (collect_inputs_valid schema w) as (f' & Hf' & Hvalid & _).
    assert (f' = f) as -> by congruence.
    destruct (collect_inputs_ok schema w) as (f' & Hf'' & _ & Hs).
    assert (f' = f) as -> by congruence.
    assert (Hreceived : st_number_input w "Horsepower (HP)" (Some (NInt 10))
                          (Some (NInt 1200)) (NInt 200) = NInt 700).
    { unfold st_number_input. by rewrite Hhp. }
    rewrite Hreceived in Hstored.
    exists f. split; [done|]. split; [done|]. split_and!.
    + rewrite Hs. apply basic_info_shown_horsepower; [by apply in_list_elem_of|].
      rewrite Hreceived. apply list_elem_of_here.
    + done.
    + intros Hclick selected_currency o. unfold run.
      destruct (get_exchange_rates_ok o) as [table ->].
      rewrite Hf. cbn [mbind result_bind]. by apply gate_passes.
  - intros schema w Hin.
    destruct (horsepower_stored schema w Hin) as (f & Hf & Hstored).
    destruct (collect_inputs_valid schema w) as (f' & Hf' & Hvalid & Herr).
    assert (f' = f) as -> by congruence.
    exists f. eexists. split; [done|]. split; [exact Hstored|].
    split_and!; try done;
      apply (st_number_input_cases w "Horsepower (HP)" (Some (NInt 10))
               (Some (NInt 1200)) (NInt 200)
               (fun n => num_lt n (NInt 10) = false ∧ num_gt n (NInt 1200) = false));
      try done; intros n _ Hb; unfold within_bounds in Hb;
      by apply andb_prop in Hb as [->%negb_true_iff ->%negb_true_iff].
  - intros n Hout. unfold check_horsepower.
    destruct Hout as [->| ->]; [by rewrite orb_true_r | done].
  - intros schema w selected_currency table f. apply gate_blocks.
Qed.

End GateClaims.

(** An instance: an entry of 700 with the Predict button pressed, and a form
    state with [valid_inputs] cleared. *)
Lemma horsepower_validation_gate_witness :
  let w := {| number_input := fun label =>
                if String.eqb label "Horsepower (HP)" then NInt 700 else NInt 20;
              selected_index := fun _ => 0%nat;
              button_clicked := fun _ => true |} in
  (∃ f out input_df rest,
     collect_inputs ["mileage"; "horsepower"; "fleet"] w = Ok f ∧
     input_values_from_widgets f !! "horsepower" = Some (VInt 700) ∧
     valid_inputs f = true ∧
     run integer_literal (fun _ => Ok tt) (fun _ => Ok (F64.of_Z 20000)) (fun x => x)
       ["mileage"; "horsepower"; "fleet"] w "USD" Rates.NetworkFailure = Ok out ∧
     calls out = CallTransform input_df :: rest) ∧
  check_horsepower (NInt 5)
    = ([StError "Horsepower must be between 10 and 1200."], false) ∧
  gate_and_predict integer_literal (fun _ => Ok tt) (fun _ => Ok (F64.of_Z 20000))
    (fun x => x) ["horsepower"] w "USD" Rates.fallback_rates
    {| input_values_from_widgets := {[ "horsepower" := VInt 5 ]};
       valid_inputs := false;
       shown := [StError "Horsepower must be between 10 and 1200."] |}
  = Ok {| messages := [StError "Horsepower must be between 10 and 1200."; gate_message];
          calls := []; formatted_price := None |}.
Proof.
  intros w.
  destruct (horsepower_validation_gate (features := unit) integer_literal
              (fun _ => Ok tt) (fun _ => Ok (F64.of_Z 20000)) (fun x => x))
    as (H700 & _ & Hcheck & Hgate).
  split_and!.
  - destruct (H700 ["mileage"; "horsepower"; "fleet"] w) as (f & Hf & Hs & _ & Hv & Hrun).
    { apply (bool_decide_unpack _). by vm_compute. }
    { reflexivity. }
    destruct (Hrun eq_refl "USD" Rates.NetworkFailure) as (out & input_df & rest & Ho & Hc).
    by exists f, out, input_df, rest.
  - apply Hcheck. by left.
  - by rewrite Hgate.
Defined.

(** C9 fails for the entry 5: the widget, created with [min_value=10], does
    not deliver it. The script receives the widget's value 200, shows no
    error, leaves Predict enabled, and a press on it predicts. *)
Lemma entry_below_minimum_is_not_received :
  let w := {| number_input := fun label =>
                if String.eqb label "Horsepower (HP)" then NInt 5 else NInt 20;
              selected_index := fun _ => 0%nat;
              button_clicked := fun _ => true |} in
  collect_inputs ["horsepower"] w
  = Ok {| input_values_from_widgets := {[ "horsepower" := VInt 200 ]};
          valid_inputs := true; shown := [] |} ∧
  run integer_literal (fun _ => Ok tt) (fun _ => Ok (F64.of_Z 20000)) (fun x => x)
    ["horsepower"] w "USD" Rates.NetworkFailure
  = Ok {| messages := [];
          calls := [CallTransform [("horsepower", VInt 200)]; CallPredict tt];
          formatted_price := Some "20,000.00" |}.
Proof. split; by vm_compute. Qed.

(** ** More on the option catalogs *)

Lemma options_str_elem_of (raw_list : list raw_item) (r s : string) :
  s ∈ prepare_options raw_list r true ↔
  ∃ item, item ∈ raw_list ∧ s = if Catalog.isna item then r else Catalog.str item.
Proof.
  unfold prepare_options, sorted, list_set.
  rewrite merge_sort_Permutation, elem_of_remove_dups, list_elem_of_fmap.
  split; intros (item & H1 & H2); exists item; done.
Qed.

Lemma prepare_options_sorted (raw_list : list raw_item) (r : string) :
  StronglySorted String.le (prepare_options raw_list r true) ∧
  NoDup (prepare_options raw_list r true).
Proof.
  unfold prepare_options, sorted, list_set. split.
  - apply StronglySorted_merge_sort; apply _.
  - rewrite merge_sort_Permutation. apply NoDup_remove_dups.
Qed.

(** Two strictly sorted lists with the same elements are the same list. *)
Lemma sorted_same_elements (l1 l2 : list string) :
  StronglySorted String.le l1 → NoDup l1 →
  StronglySorted String.le l2 → NoDup l2 →
  (∀ s, s ∈ l1 ↔ s ∈ l2) → l1 = l2.
Proof.
  intros Hs1 Hn1 Hs2 Hn2 Hel.
  apply (StronglySorted_unique String.le); [done | done |].
  by apply NoDup_Permutation.
Qed.

(** The options depend on the raw entries as a set: their order and their
    repetitions in the raw list do not matter. *)
Theorem prepare_options_set_of_entries (l1 l2 : list raw_item) (r : string) :
  (∀ item, item ∈ l1 ↔ item ∈ l2) →
  prepare_options l1 r true = prepare_options l2 r true.
Proof.
  intros Hsame.
  destruct (prepare_options_sorted l1 r) as [Hs1 Hn1].
  destruct (prepare_options_sorted l2 r) as [Hs2 Hn2].
  apply sorted_same_elements; try done.
  intros s. rewrite !options_str_elem_of.
  split; intros (item & Hin & ->); exists item; (split; [by apply Hsame | done]).
Qed.

(** An instance: the transmission entries reversed, with one repeated. *)
Lemma prepare_options_set_of_entries_witness :
  prepare_options [RawStr "Dual Clutch"; RawNaN; RawStr "M"; RawStr "CVT"; RawStr "A";
                   RawStr "M"] "Unknown" true
  = prepare_options transmission_opts_raw "Unknown" true.
Proof.
  apply prepare_options_set_of_entries. intros item. unfold transmission_opts_raw.
  rewrite !elem_of_cons. rewrite !elem_of_nil. tauto.
Defined.

(** Preparing a prepared list again changes nothing, whatever replacement
    string is given the second time. *)
Theorem prepare_options_idempotent (raw_list : list raw_item) (r r' : string) :
  prepare_options (map RawStr (prepare_options raw_list r true)) r' true
  = prepare_options raw_list r true.
Proof.
  destruct (prepare_options_sorted raw_list r) as [Hs Hn].
  destruct (prepare_options_sorted (map RawStr (prepare_options raw_list r true)) r')
    as [Hs' Hn'].
  apply sorted_same_elements; try done.
  intros s. rewrite options_str_elem_of. split.
  - intros (item & (o & -> & Ho)%list_elem_of_fmap & ->). done.
  - intros Ho. exists (RawStr s). split; [|done].
    apply list_elem_of_fmap. by exists s.
Qed.

(** ** More on the transmission code mapping *)

Lemma reverse_lookup_first_match
    (before after : list (string * string)) (code selected default : string) :
  selected ∉ map snd before →
  reverse_lookup (before ++ (code, selected) :: after) selected default = code.
Proof.
  intros Hnot. induction before as [|[k v] before IH]; cbn [app reverse_lookup].
  - by rewrite String.eqb_refl.
  - cbn [map snd] in Hnot. apply not_elem_of_cons in Hnot as [Hne Hnot].
    destruct (String.eqb_spec v selected) as [->|_]; [done | by apply IH].
Qed.

(** The reverse lookup follows the declaration order of the map: of several
    codes with the same display label, the one declared first is returned. *)
Theorem reverse_lookup_first_declared
    (before after : list (string * string)) (code selected : string) :
  selected ∉ map snd before →
  original_trans_value (before ++ (code, selected) :: after) selected = code.
Proof. apply reverse_lookup_first_match. Qed.

(** An instance: two codes share the label "Automatic". *)
Lemma reverse_lookup_first_declared_witness :
  original_trans_value
    [("M", "Manual"); ("A", "Automatic"); ("AT", "Automatic")] "Automatic" = "A".
Proof.
  apply (reverse_lookup_first_declared [("M", "Manual")] [("AT", "Automatic")]).
  apply (bool_decide_unpack _). by vm_compute.
Defined.

(** Showing internal options through the display map and mapping the shown
    labels back gives the internal options again, provided the labels of the
    map are distinct and an option without an entry is not the label of
    another code. *)
Theorem display_options_round_trip
    (display_map : list (string * string)) (opts : list string) :
  NoDup (map snd display_map) →
  (∀ opt, opt ∈ opts → Dict.mem display_map opt = true ∨ opt ∉ map snd display_map) →
  map (original_trans_value display_map)
      (map (fun opt => Dict.get_default display_map opt opt) opts) = opts.
Proof.
  intros Hnd Hopts. induction opts as [|opt opts IH]; [done|].
  cbn [map]. f_equal.
  - unfold Dict.get_default, Dict.mem in *.
    destruct (Dict.get display_map opt) as [label|] eqn:E.
    + apply reverse_lookup_found; [done | by apply dict_get_elem_of].
    + apply reverse_lookup_absent.
      destruct (Hopts opt) as [Hmem|Hlab]; [apply list_elem_of_here | | done].
      by rewrite E in Hmem.
  - apply IH. intros o Ho. apply Hopts. by apply list_elem_of_further.
Qed.

(** An instance: the options of the transmission widget. *)
Lemma display_options_round_trip_witness :
  display_trans_opts = ["Automatic"; "CVT"; "Dual Clutch"; "Manual"; "Unknown"] ∧
  map (original_trans_value transmission_options_map) display_trans_opts
  = prepared_trans_opts.
Proof.
  split; [by vm_compute|].
  apply (display_options_round_trip transmission_options_map prepared_trans_opts).
  - apply (bool_decide_unpack _). by vm_compute.
  - intros opt Hopt. left. vm_compute in Hopt.
    cases_elem_of Hopt; reflexivity.
Defined.

(** ** More on the exchange-rate fetch *)

Lemma fetch_live_success data :
  Rates.indicates_success data = true →
  Rates.fetch_live (Rates.Parsed data) =
  rates ← Rates.subscript data "rates";
  has_egp ← Rates.contains rates "EGP";
  if negb has_egp then Rates.setitem rates "EGP" (Rates.JNum (NInt 50)) else Ok rates.
Proof.
  unfold Rates.indicates_success, Rates.fetch_live.
  cbn [Rates.requests_get_json mbind result_bind].
  destruct (Rates.subscript data "result") as [r|e]; [|done].
  cbn [mbind result_bind]. by intros ->.
Qed.

(** Whenever the fetch returns a dictionary, it has an entry for EGP. *)
Theorem fetched_table_has_egp o fields :
  Rates.get_exchange_rates o = Ok (Rates.JObj fields) →
  Dict.mem fields "EGP" = true.
Proof.
  unfold Rates.get_exchange_rates, try_except.
  destruct o as [| |data]; [by intros [= <-] | by intros [= <-] |].
  destruct (Rates.indicates_success data) eqn:Hs.
  - rewrite (fetch_live_success data Hs).
    destruct (Rates.subscript data "rates") as [rates|e]; [|by intros [= <-]].
    cbn [mbind result_bind].
    destruct rates as [| | | |items|rates]; cbn [Rates.contains mbind result_bind];
      try (by intros [= <-]).
    + destruct (Rates.is_substring _ _); cbn; [done | by intros [= <-]].
    + destruct (existsb _ _); cbn; [done | by intros [= <-]].
    + destruct (Dict.mem rates "EGP") eqn:Hmem; cbn.
      * by intros [= <-].
      * intros [= <-]. unfold Dict.mem. by rewrite dict_get_set_eq.
  - unfold Rates.fetch_live, Rates.indicates_success in *.
    cbn [Rates.requests_get_json mbind result_bind].
    destruct (Rates.subscript data "result") as [r|e]; [|by intros [= <-]].
    cbn [mbind result_bind]. rewrite Hs. by intros [= <-].
Qed.

(** An instance: a successful response whose rates lack EGP. *)
Lemma fetched_table_has_egp_witness :
  Dict.mem [("USD", Rates.JNum (NInt 1)); ("EGP", Rates.JNum (NInt 50))] "EGP" = true.
Proof.
  apply (fetched_table_has_egp
           (Rates.Parsed
              (Rates.JObj [("result", Rates.JStr "success");
                           ("rates", Rates.JObj [("USD", Rates.JNum (NInt 1))])]))).
  reflexivity.
Defined.

(** A successful response whose rates already hold EGP is returned as it is:
    the live EGP rate is not overwritten. *)
Theorem live_egp_rate_is_kept data rates :
  Rates.indicates_success data = true →
  Rates.subscript data "rates" = Ok (Rates.JObj rates) →
  Dict.mem rates "EGP" = true →
  Rates.get_exchange_rates (Rates.Parsed data) = Ok (Rates.JObj rates).
Proof.
  intros Hs Hr Hegp. unfold Rates.get_exchange_rates.
  rewrite (fetch_live_success data Hs), Hr.
  cbn [mbind result_bind Rates.contains]. by rewrite Hegp.
Qed.

(** An instance: a live EGP rate of 48.5. *)
Lemma live_egp_rate_is_kept_witness :
  Rates.get_exchange_rates
    (Rates.Parsed
       (Rates.JObj [("result", Rates.JStr "success");
                    ("rates", Rates.JObj [("EGP", Rates.JNum (NFloat (F64.lit 485 1)))])]))
  = Ok (Rates.JObj [("EGP", Rates.JNum (NFloat (F64.lit 485 1)))]).
Proof.
  apply live_egp_rate_is_kept; reflexivity.
Defined.

(** A response that reports success but has no usable rates gives the
    fallback table: the rates are missing, or they are null, a boolean or a
    number, or they are a list or a string that does not contain "EGP" (the
    assignment of the EGP rate then fails). *)
Theorem malformed_success_gives_fallback data :
  Rates.indicates_success data = true →
  match Rates.subscript data "rates" with
  | Raise _ => True
  | Ok (Rates.JObj _) => False
  | Ok (Rates.JArr items) => existsb (fun x => Rates.eq_str x "EGP") items = false
  | Ok (Rates.JStr s) => Rates.is_substring "EGP" s = false
  | Ok _ => True
  end →
  Rates.get_exchange_rates (Rates.Parsed data) = Ok Rates.fallback_rates.
Proof.
  intros Hs. unfold Rates.get_exchange_rates. rewrite (fetch_live_success data Hs).
  destruct (Rates.subscript data "rates") as [rates|e]; [|done].
  destruct rates as [| | |s|items|rates]; cbn; try done.
  - by intros ->.
  - by intros ->.
Qed.

(** An instance: success reported with a list of currency codes as rates. *)
Lemma malformed_success_gives_fallback_witness :
  Rates.get_exchange_rates
    (Rates.Parsed
       (Rates.JObj [("result", Rates.JStr "success");
                    ("rates", Rates.JArr [Rates.JStr "USD"; Rates.JStr "EUR"])]))
  = Ok Rates.fallback_rates.
Proof.
  apply malformed_success_gives_fallback; reflexivity.
Defined.

(** The fetch does not always return a table: a response that reports
    success with a list of rates that contains "EGP" is returned as that
    list, and the conversion of a price then fails at [.get], for every price
    and currency. *)
Theorem list_of_rates_fails_at_conversion data items :
  Rates.indicates_success data = true →
  Rates.subscript data "rates" = Ok (Rates.JArr items) →
  existsb (fun x => Rates.eq_str x "EGP") items = true →
  Rates.get_exchange_rates (Rates.Parsed data) = Ok (Rates.JArr items) ∧
  ∀ price selected_currency,
    convert price selected_currency (Rates.JArr items) = Raise AttributeError.
Proof.
  intros Hs Hr Hegp. split; [|done].
  unfold Rates.get_exchange_rates.
  rewrite (fetch_live_success data Hs), Hr.
  cbn [mbind result_bind Rates.contains]. by rewrite Hegp.
Qed.

(** An instance: the rates are the list of the currency codes. *)
Lemma list_of_rates_fails_at_conversion_witness :
  Rates.get_exchange_rates
    (Rates.Parsed
       (Rates.JObj [("result", Rates.JStr "success");
                    ("rates", Rates.JArr [Rates.JStr "USD"; Rates.JStr "EGP"])]))
  = Ok (Rates.JArr [Rates.JStr "USD"; Rates.JStr "EGP"]) ∧
  convert (F64.of_Z 100) "USD" (Rates.JArr [Rates.JStr "USD"; Rates.JStr "EGP"])
  = Raise AttributeError.
Proof.
  destruct (list_of_rates_fails_at_conversion
              (Rates.JObj [("result", Rates.JStr "success");
                           ("rates", Rates.JArr [Rates.JStr "USD"; Rates.JStr "EGP"])])
              [Rates.JStr "USD"; Rates.JStr "EGP"] eq_refl eq_refl eq_refl)
    as [Hfetch Hconvert].
  split; [exact Hfetch | apply Hconvert].
Defined.

(** ** Multiplying a float by 1.0 *)

Lemma bounded_canonical m e :
  bounded F64.prec F64.emax m e = true →
  fexp F64.prec F64.emax (Z.pos (digits2_pos m) + e) = e ∧ e <= F64.emax - F64.prec.
Proof.
  unfold bounded, canonical_mantissa. intros [H1 H2]%andb_prop.
  split; [by apply Z.eqb_eq | by apply Z.leb_le].
Qed.

Lemma shr_fexp_canonical m e :
  bounded F64.prec F64.emax m e = true →
  shr_fexp F64.prec F64.emax (Z.pos m) e loc_Exact
  = ({| shr_m := Z.pos m; shr_r := false; shr_s := false |}, e).
Proof.
  intros [Hc _]%bounded_canonical. unfold shr_fexp.
  cbn [Zdigits2 shr_record_of_loc]. rewrite Hc, Z.sub_diag. done.
Qed.

Lemma shr_fexp_scaled m e :
  bounded F64.prec F64.emax m e = true →
  shr_fexp F64.prec F64.emax (Z.pos (m * 4503599627370496)) (e + -52) loc_Exact
  = ({| shr_m := Z.pos m; shr_r := false; shr_s := false |}, e).
Proof.
  intros [Hc _]%bounded_canonical. unfold shr_fexp.
  rewrite Pos.mul_comm. cbv [Pos.mul]. cbn [Zdigits2 digits2_pos shr_record_of_loc].
  replace (Z.pos (Pos.succ _) + (e + -52)) with (Z.pos (digits2_pos m) + e) by lia.
  rewrite Hc. replace (e - (e + -52)) with 52 by lia.
  cbn [shr iter_pos Pos.iter shr_1 orb]. f_equal. lia.
Qed.

Lemma mul_one_finite s m e :
  bounded F64.prec F64.emax m e = true →
  F64.mul (S754_finite s m e) (F64.of_Z 1) = S754_finite s m e.
Proof.
  intros Hb. unfold F64.mul, F64.of_Z.
  change (binary_normalize F64.prec F64.emax 1 0 false)
    with (S754_finite false 4503599627370496 (-52)).
  cbn [SFmul]. rewrite xorb_false_r.
  unfold binary_round_aux.
  rewrite (shr_fexp_scaled m e Hb). cbn [shr_m loc_of_shr_record round_nearest_even].
  rewrite (shr_fexp_canonical m e Hb). cbn [shr_m].
  apply bounded_canonical in Hb as [_ Hle].
  by rewrite (proj2 (Z.leb_le _ _) Hle).
Qed.

Lemma mul_one (x : spec_float) :
  valid_binary F64.prec F64.emax x = true → F64.mul x (F64.of_Z 1) = x.
Proof.
  destruct x as [s|s| |s m e];
    [by destruct s | by destruct s | done | apply mul_one_finite].
Qed.

(** ** More on number formatting and conversion *)

(** The grouped string of an integer determines the integer: without its
    commas it is [str(z)], and reading that back gives [z]. Distinct integers
    are therefore never shown alike. *)
Theorem grouped_integer_reads_back :
  (∀ z, read_int (ungroup (Fmt.format_int_grouped z)) = Some z) ∧
  (∀ z z', Fmt.format_int_grouped z = Fmt.format_int_grouped z' → z = z').
Proof.
  assert (H : ∀ z, read_int (ungroup (Fmt.format_int_grouped z)) = Some z).
  { intros z. destruct (format_int_grouped_shape z) as (_ & _ & ->).
    apply read_int_str_int. }
  split; [done|]. intros z z' Heq.
  pose proof (H z) as Hz. rewrite Heq, H in Hz. by injection Hz.
Qed.

(** For a finite price the format with two decimals shows a thousands-grouped
    number with exactly two decimals that denotes the magnitude of the price
    in hundredths rounded to the nearest integer, the even one when the price
    lies halfway, with the sign of the price. *)
Theorem fixed2_correctly_rounded (f : spec_float) :
  F64.is_finite f = true →
  grouped_two_decimals (Fmt.format_fixed2_grouped f) ∧
  ∃ h, nearest_hundredths f h ∧
       read_hundredths (Fmt.format_fixed2_grouped f)
       = Some (if F64.signbit f then - h else h).
Proof.
  intros Hf. split; [by apply format_fixed2_grouped_shape|].
  exists (Fmt.hundredths f).
  split; [by apply hundredths_is_nearest | by apply format_fixed2_reads_back].
Qed.

(** An instance: 0.125 lies halfway between 0.12 and 0.13 and is shown as
    "0.12". *)
Lemma fixed2_correctly_rounded_witness :
  Fmt.format_fixed2_grouped (F64.lit 125 3) = "0.12" ∧
  read_hundredths "0.12" = Some 12 ∧
  nearest_hundredths (F64.lit 125 3) 12.
Proof.
  destruct (fixed2_correctly_rounded (F64.lit 125 3) eq_refl) as (_ & h & Hnear & Hread).
  assert (h = 12) as -> by (vm_compute in Hread; by injection Hread).
  split; [reflexivity|]. split; [reflexivity | exact Hnear].
Defined.

Lemma float_of_unit_rate rate :
  to_float rate = F64.of_Z 1 → float_of_number rate = Ok (F64.of_Z 1).
Proof.
  destruct rate as [z|f]; cbn [to_float float_of_number]; intros ->; done.
Qed.

(** A currency the rate table lacks is converted at the default rate 1.0, and
    so is one whose rate is 1: the converted amount is then the dollar price
    itself, bit for bit, and only the formatting depends on the currency. *)
Theorem unit_rate_keeps_price (price : spec_float) selected_currency fields :
  valid_binary F64.prec F64.emax price = true →
  let unchanged :=
    formatted ← format_price selected_currency price; Ok (price, formatted) in
  (Dict.get fields selected_currency = None →
     convert price selected_currency (Rates.JObj fields) = unchanged) ∧
  (∀ rate, Dict.get fields selected_currency = Some (Rates.JNum rate) →
     to_float rate = F64.of_Z 1 →
     convert price selected_currency (Rates.JObj fields) = unchanged).
Proof.
  intros Hvalid unchanged. subst unchanged.
  split; [intros Hget | intros rate Hget Hone%float_of_unit_rate];
    unfold convert, rate_lookup, Dict.get_default; rewrite Hget;
    cbn [mbind result_bind times_rate float_of_number]; rewrite ?Hone;
    cbn [mbind result_bind]; by rewrite (mul_one price Hvalid).
Qed.

(** An instance: the fallback table has no Swiss franc and rates the dollar
    at 1.0, so 100 dollars are shown as "100.00" for both. *)
Lemma unit_rate_keeps_price_witness :
  match Rates.fallback_rates with
  | Rates.JObj fields =>
      convert (F64.of_Z 100) "CHF" (Rates.JObj fields)
        = Ok (F64.of_Z 100, "100.00") ∧
      convert (F64.of_Z 100) "USD" (Rates.JObj fields)
        = Ok (F64.of_Z 100, "100.00")
  | _ => False
  end.
Proof.
  cbv [Rates.fallback_rates].
  match goal with |- convert _ _ (Rates.JObj ?fs) = _ ∧ _ =>
    destruct (unit_rate_keeps_price (F64.of_Z 100) "CHF" fs eq_refl) as [Habsent _];
    destruct (unit_rate_keeps_price (F64.of_Z 100) "USD" fs eq_refl) as [_ Hone]
  end.
  split.
  - rewrite Habsent by reflexivity. reflexivity.
  - rewrite (Hone (NFloat (F64.of_Z 1))) by reflexivity. reflexivity.
Defined.



(** ** More on record assembly and the coercion loop *)

Section AssemblyMore.
Variable str_to_number : string -> option number.
Implicit Types (iv : gmap string value) (d : list (string * value)).

Lemma fold_assign_ext iv iv' schema d :
  (∀ c, c ∈ schema → iv !! c = iv' !! c) →
  fold_left (assign str_to_number iv) schema d
  = fold_left (assign str_to_number iv') schema d.
Proof.
  revert d. induction schema as [|c schema IH]; intros d Hagree; [done|].
  cbn [fold_left]. rewrite IH by (intros x Hx; apply Hagree; by right).
  unfold assign, assigned_value. by rewrite (Hagree c) by left.
Qed.

Lemma uncollected_ext iv iv' schema :
  (∀ c, c ∈ schema → iv !! c = iv' !! c) →
  uncollected schema iv = uncollected schema iv'.
Proof.
  unfold uncollected. induction schema as [|c schema IH]; intros Hagree; [done|].
  rewrite !filter_cons, (Hagree c) by left.
  by rewrite IH by (intros x Hx; apply Hagree; by right).
Qed.

(** Assembly reads the collected values of the schema's columns and nothing
    else: two dictionaries of widget outputs that agree on every schema
    column give the same record and the same warnings, so whatever was
    collected under a name outside the schema never reaches the model. *)
Theorem assemble_reads_schema_columns_only schema iv iv' :
  (∀ c, c ∈ schema → iv !! c = iv' !! c) →
  assemble str_to_number schema iv = assemble str_to_number schema iv'.
Proof.
  intros Hagree. rewrite !assemble_eq.
  by rewrite (fold_assign_ext iv iv'), (uncollected_ext iv iv').
Qed.

(** A collected value that needs no coercion is stored as it is, without a
    warning for its column: any value of a categorical column or a boolean
    flag, and any number of a numeric column. *)
Theorem assemble_keeps_collected schema iv c v :
  c ∈ schema →
  iv !! c = Some v →
  is_numeric_column c = false ∨ (∃ n, v = VNum n) →
  ∃ r w,
    assemble str_to_number schema iv = Ok (r, w) ∧
    Dict.get r c = Some v ∧
    missing_feature_warning c ∉ w.
Proof.
  intros Hc Hv Hkind. eexists _, _. split; [apply assemble_eq|]. split.
  - rewrite fold_get_schema by done. f_equal.
    unfold assigned_value. rewrite Hv.
    destruct (is_numeric_column c); [|done].
    by destruct Hkind as [?|[n ->]].
  - rewrite missing_feature_warning_elem_of. unfold uncollected.
    intros [Hnone _]%list_elem_of_filter. by rewrite Hv in Hnone.
Qed.

Lemma to_numeric_not_string v s : to_numeric str_to_number v ≠ VStr s.
Proof. destruct v as [n|t|]; cbn; [done| by destruct (str_to_number t) |done]. Qed.

Lemma series_to_numeric_not_string v s : series_to_numeric str_to_number v ≠ VStr s.
Proof.
  destruct v as [[z|f]|t|]; cbn; try done.
  - by destruct (_ && _).
  - by destruct (str_to_number t).
Qed.


End AssemblyMore.

(** An instance: a collected body type and a collected mileage. *)
Lemma assemble_keeps_collected_witness :
  ∃ r w,
    assemble (fun _ => None) ["mileage"; "body_type"]
      {[ "mileage" := VInt 50000; "body_type" := VStr "Sedan" ]} = Ok (r, w) ∧
    Dict.get r "body_type" = Some (VStr "Sedan") ∧
    missing_feature_warning "body_type" ∉ w.
Proof.
  apply (assemble_keeps_collected (fun _ => None)).
  - apply (bool_decide_unpack _). by vm_compute.
  - by vm_compute.
  - left. by vm_compute.
Defined.

(** An instance: a value collected under a name the schema does not list. *)
Lemma assemble_reads_schema_columns_only_witness :
  assemble (fun _ => None) ["mileage"] {[ "mileage" := VInt 50000; "vin" := VStr "X" ]}
  = assemble (fun _ => None) ["mileage"] {[ "mileage" := VInt 50000 ]}.
Proof.
  apply (assemble_reads_schema_columns_only (fun _ => None)).
  intros c ->%list_elem_of_singleton. by vm_compute.
Defined.

(** ** What the form pass collects *)

Section FormColumns.
Variable schema : list string.
Variable w : widgets.
Variable P : string → value → Prop.
Implicit Types (s : form) (cols : list string).

Lemma stored_columns_step (m : gmap string value) col v cols :
  collected_columns schema cols m →
  collected_columns schema (col :: cols)
    (if in_list col schema then <[col:=v]> m else m).
Proof.
  unfold collected_columns. intros Hm c. rewrite elem_of_cons.
  destruct (in_list col schema) eqn:Hin.
  - apply in_list_elem_of in Hin. rewrite lookup_insert_is_Some, Hm.
    destruct (decide (col = c)) as [->|Hne]; [tauto|].
    split; [intros [?|[_ []]]; [done|tauto] | intros [? [->|?]]; [done|tauto]].
  - rewrite Hm. split; [tauto|]. intros [Hc [->|?]]; [|done].
    apply in_list_elem_of in Hc. congruence.
Qed.

Lemma stored_values_step (m : gmap string value) col v :
  stored_values P m →
  P col v →
  stored_values P (if in_list col schema then <[col:=v]> m else m).
Proof.
  unfold stored_values. intros Hm Hv c x. destruct (in_list col schema); [|apply Hm].
  destruct (decide (col = c)) as [->|Hne].
  - rewrite lookup_insert_eq. by intros [= <-].
  - rewrite lookup_insert_ne by done. apply Hm.
Qed.

Lemma number_field_stored col label lo hi value check s :
  input_values_from_widgets (number_field schema w col label lo hi value check s)
  = if in_list col schema
    then <[col := VNum (st_number_input w label lo hi value)]>
           (input_values_from_widgets s)
    else input_values_from_widgets s.
Proof.
  unfold number_field. destruct (in_list col schema); [|done].
  by destruct (check (st_number_input w label lo hi value)).
Qed.

Lemma select_field_stored col label options s :
  input_values_from_widgets (select_field schema w col label options s)
  = if in_list col schema
    then <[col := st_selectbox w label options]> (input_values_from_widgets s)
    else input_values_from_widgets s.
Proof. unfold select_field. by destruct (in_list col schema). Qed.

Lemma transmission_field_stored s :
  ∃ code,
    input_values_from_widgets (transmission_field schema w s)
    = if in_list "transmission" schema
      then <["transmission" := VStr code]> (input_values_from_widgets s)
      else input_values_from_widgets s.
Proof.
  unfold transmission_field.
  destruct (st_selectbox_in_options w "Transmission" display_trans_opts)
    as (label & -> & _); [done|].
  eexists. by destruct (in_list "transmission" schema).
Qed.

Lemma flag_field_stored s flag_col flag_label :
  ∃ s' b,
    flag_field schema w s (flag_col, flag_label) = Ok s' ∧
    (b = 0 ∨ b = 1) ∧
    input_values_from_widgets s'
    = if in_list flag_col schema
      then <[flag_col := VInt b]> (input_values_from_widgets s)
      else input_values_from_widgets s.
Proof.
  unfold flag_field. destruct (in_list flag_col schema); [|exists s, 0; by auto].
  unfold st_selectbox. cbn [Dict.keys map fst bool_options_map_display].
  destruct (selected_index w flag_label) as [|[|n]]; cbn; eauto 10.
Qed.

Hypothesis numbers_ok :
  ∀ c label lo hi value,
    fits_int64 value = true → P c (VNum (st_number_input w label lo hi value)).
Hypothesis flag_values_ok : ∀ c b, b = 0 ∨ b = 1 → P c (VInt b).
Hypothesis strings_ok :
  ∀ c o, Dict.mem categorical_widget_map c = true → P c (VStr o).

Lemma form_start_collects :
  collected_columns schema [] (input_values_from_widgets form_start) ∧
  stored_values P (input_values_from_widgets form_start).
Proof.
  split.
  - intros c. cbn. rewrite lookup_empty, elem_of_nil. split; [by intros [] | tauto].
  - intros c v. cbn. by rewrite lookup_empty.
Qed.

Lemma number_field_collects col label lo hi value check s cols :
  fits_int64 value = true →
  collected_columns schema cols (input_values_from_widgets s) ∧
  stored_values P (input_values_from_widgets s) →
  collected_columns schema (col :: cols)
    (input_values_from_widgets
       (number_field schema w col label lo hi value check s)) ∧
  stored_values P
    (input_values_from_widgets (number_field schema w col label lo hi value check s)).
Proof.
  intros Hvalue [Hc Hv]. rewrite number_field_stored. split.
  - by apply stored_columns_step.
  - apply stored_values_step; [done | by apply numbers_ok].
Qed.

Lemma select_field_collects col label options s cols :
  options ≠ [] →
  Dict.mem categorical_widget_map col = true →
  collected_columns schema cols (input_values_from_widgets s) ∧
  stored_values P (input_values_from_widgets s) →
  collected_columns schema (col :: cols)
    (input_values_from_widgets (select_field schema w col label options s)) ∧
  stored_values P (input_values_from_widgets (select_field schema w col label options s)).
Proof.
  intros Hne Hcol [Hc Hv]. rewrite select_field_stored. split.
  - by apply stored_columns_step.
  - apply stored_values_step; [done|].
    destruct (st_selectbox_in_options w label options Hne) as (o & -> & _).
    by apply strings_ok.
Qed.

Lemma transmission_field_collects s cols :
  collected_columns schema cols (input_values_from_widgets s) ∧
  stored_values P (input_values_from_widgets s) →
  collected_columns schema ("transmission" :: cols)
    (input_values_from_widgets (transmission_field schema w s)) ∧
  stored_values P (input_values_from_widgets (transmission_field schema w s)).
Proof.
  intros [Hc Hv]. destruct (transmission_field_stored s) as [code ->]. split.
  - by apply stored_columns_step.
  - apply stored_values_step; [done|]. by apply strings_ok.
Qed.

Lemma flags_collect flags s cols :
  collected_columns schema cols (input_values_from_widgets s) ∧
  stored_values P (input_values_from_widgets s) →
  ∃ s', for_each (flag_field schema w) flags s = Ok s' ∧
    collected_columns schema (rev (map fst flags) ++ cols) (input_values_from_widgets s') ∧
    stored_values P (input_values_from_widgets s').
Proof.
  revert s cols. induction flags as [|[flag_col flag_label] flags IH]; intros s cols [Hc Hv].
  - by exists s.
  - destruct (flag_field_stored s flag_col flag_label) as (s1 & b & H1 & Hb & Hiv).
    destruct (IH s1 (flag_col :: cols)) as (s2 & H2 & Hc2 & Hv2).
    { rewrite Hiv. split.
      - by apply stored_columns_step.
      - apply stored_values_step; [done | by apply flag_values_ok]. }
    exists s2. cbn [for_each]. rewrite H1. cbn [mbind result_bind].
    split; [done|]. split; [|done].
    cbn [map fst rev]. by rewrite <- (assoc_L (++)).
Qed.

Lemma collected_columns_equiv cols cols' m :
  (∀ c, c ∈ cols ↔ c ∈ cols') →
  collected_columns schema cols m → collected_columns schema cols' m.
Proof. intros Heq Hc c. by rewrite <- Heq. Qed.

(** The form pass never raises and collects a value for exactly the schema
    columns that have a widget: the columns of [numerical_cols] and the keys
    of [categorical_widget_map]. *)
Lemma collect_inputs_collects :
  ∃ f, collect_inputs schema w = Ok f ∧
    collected_columns schema (numerical_cols ++ Dict.keys categorical_widget_map)
      (input_values_from_widgets f) ∧
    stored_values P (input_values_from_widgets f).
Proof.
  unfold collect_inputs, condition_status.
  set (s1 := engine_dimensions schema w (basic_info schema w form_start)).
  eassert (H1 : collected_columns schema _ (input_values_from_widgets s1) ∧
                stored_values P (input_values_from_widgets s1)).
  { subst s1. unfold engine_dimensions, basic_info.
    do 4 (apply select_field_collects; [by vm_compute | reflexivity |]).
    do 18 (apply number_field_collects; [reflexivity|]).
    apply form_start_collects. }
  destruct (flags_collect flag_widgets s1 _ H1) as (s2 & -> & H2).
  cbn [mbind result_bind]. eexists. split; [done|].
  match goal with |- collected_columns _ _ ?m ∧ _ =>
    eassert (H3 : collected_columns schema _ m ∧ stored_values P m)
  end.
  { apply select_field_collects; [by vm_compute | reflexivity |].
    apply transmission_field_collects.
    apply select_field_collects; [by vm_compute | reflexivity |].
    exact H2. }
  destruct H3 as [Hc Hv]. split; [|exact Hv].
  revert Hc. apply collected_columns_equiv.
  match goal with |- ∀ c, c ∈ ?l1 ↔ c ∈ ?l2 =>
    assert (Hto : Forall (fun c => c ∈ l2) l1)
      by (apply (bool_decide_unpack _); by vm_compute);
    assert (Hfrom : Forall (fun c => c ∈ l1) l2)
      by (apply (bool_decide_unpack _); by vm_compute)
  end.
  intros c. split; intros Hc.
  - by apply (proj1 (Forall_forall _ _) Hto).
  - by apply (proj1 (Forall_forall _ _) Hfrom).
Qed.

End FormColumns.

Lemma widget_columns_elem_of c :
  c ∈ numerical_cols ++ Dict.keys categorical_widget_map ↔
  in_list c numerical_cols = true ∨ Dict.mem categorical_widget_map c = true.
Proof. by rewrite elem_of_app, in_list_elem_of, dict_mem_keys. Qed.

Lemma collect_inputs_widget_values schema w :
  ∃ f, collect_inputs schema w = Ok f ∧
    collected_columns schema (numerical_cols ++ Dict.keys categorical_widget_map)
      (input_values_from_widgets f) ∧
    stored_values widget_value (input_values_from_widgets f).
Proof.
  apply collect_inputs_collects.
  - intros c label lo hi value _. left. by eexists.
  - intros c b _. left. by eexists.
  - intros c o Hc. right. by exists o.
Qed.

(** When the user's entries are in the range of [int64], so is every number
    the form stores. *)
Lemma collect_inputs_int64_values schema w :
  (∀ label, fits_int64 (number_input w label) = true) →
  ∃ f, collect_inputs schema w = Ok f ∧
    collected_columns schema (numerical_cols ++ Dict.keys categorical_widget_map)
      (input_values_from_widgets f) ∧
    stored_values
      (fun c v => widget_value c v ∧ ∀ n, v = VNum n → fits_int64 n = true)
      (input_values_from_widgets f).
Proof.
  intros Hentries. apply collect_inputs_collects.
  - intros c label lo hi value Hvalue. split; [left; by eexists|].
    intros n [= <-]. unfold st_number_input. by destruct (_ && _).
  - intros c b Hb. split; [left; by eexists|].
    intros n [= <-]. by destruct Hb as [->| ->].
  - intros c o Hc. split; [right; by exists o | done].
Qed.

(** A schema column without a collected value on the page is a numeric one:
    the categorical columns and the flags all have a widget. *)
Lemma no_widget_numeric c :
  ¬ (in_list c numerical_cols = true ∨ Dict.mem categorical_widget_map c = true) →
  is_numeric_column c = true ∧ in_list c numerical_cols = false.
Proof.
  intros Hno. unfold is_numeric_column.
  destruct (Dict.mem categorical_widget_map c); [tauto|].
  destruct (in_list c numerical_cols) eqn:Hnum; [tauto|].
  destruct (in_list c boolean_flags) eqn:Hb; [|done].
  apply boolean_flag_numerical in Hb. congruence.
Qed.

(** In a run of the page the form pass never raises and stores a value for
    exactly the schema columns that are listed in [numerical_cols] or are keys
    of [categorical_widget_map]; each stored value is a number, or a string
    for a categorical column. *)
Theorem form_collects_widget_columns schema w :
  ∃ f, collect_inputs schema w = Ok f ∧
    (∀ c, is_Some (input_values_from_widgets f !! c) ↔
          c ∈ schema ∧
          (in_list c numerical_cols = true ∨ Dict.mem categorical_widget_map c = true)) ∧
    (∀ c v, input_values_from_widgets f !! c = Some v →
            (∃ n, v = VNum n) ∨
            (∃ o, v = VStr o ∧ Dict.mem categorical_widget_map c = true)).
Proof.
  destruct (collect_inputs_widget_values schema w) as (f & Hf & Hc & Hv).
  exists f. split; [done|]. split; [|exact Hv].
  intros c. by rewrite (Hc c), widget_columns_elem_of.
Qed.

Lemma filter_iff_on (P Q : string → Prop)
    `{!∀ x, Decision (P x)} `{!∀ x, Decision (Q x)} (l : list string) :
  (∀ x, x ∈ l → (P x ↔ Q x)) → filter P l = filter Q l.
Proof.
  induction l as [|x l IH]; intros Hiff; [done|].
  rewrite !filter_cons, IH by (intros y Hy; apply Hiff; by right).
  destruct (decide (P x)) as [HP|HP], (decide (Q x)) as [HQ|HQ]; try done;
    exfalso; apply (Hiff x) in HP || apply HP, (Hiff x); try done; by left.
Qed.

Section PageAssembly.
Variable str_to_number : string -> option number.

Lemma page_assigned_value schema f c :
  collected_columns schema (numerical_cols ++ Dict.keys categorical_widget_map)
    (input_values_from_widgets f) →
  stored_values widget_value (input_values_from_widgets f) →
  c ∈ schema →
  assigned_value str_to_number (input_values_from_widgets f) c
    = default nan (input_values_from_widgets f !! c).
Proof.
  intros Hcols Hvals Hc. unfold assigned_value.
  destruct (input_values_from_widgets f !! c) as [v|] eqn:E; cbn [default].
  - destruct (Hvals c v E) as [[n ->]|(o & -> & Hcat)].
    + by destruct (is_numeric_column c).
    + unfold is_numeric_column. by rewrite Hcat.
  - destruct (no_widget_numeric c) as [-> _]; [|done].
    rewrite <- widget_columns_elem_of. intros Hw.
    assert (His : is_Some (input_values_from_widgets f !! c)) by (apply Hcols; by split).
    rewrite E in His. by destruct His.
Qed.

(** The coercion loop on what the page assembled: only a column of
    [numerical_cols] that the schema lists more than once is changed. *)
Lemma page_cell_coerced schema f c :
  collected_columns schema (numerical_cols ++ Dict.keys categorical_widget_map)
    (input_values_from_widgets f) →
  stored_values
    (fun c v => widget_value c v ∧ ∀ n, v = VNum n → fits_int64 n = true)
    (input_values_from_widgets f) →
  c ∈ schema →
  snd (coerce_cell str_to_number schema
         (c, default nan (input_values_from_widgets f !! c)))
  = if in_list c numerical_cols && repeated c schema then nan
    else default nan (input_values_from_widgets f !! c).
Proof.
  intros Hcols Hvals Hc. unfold coerce_cell.
  destruct (in_list c numerical_cols) eqn:Hnum; [|done].
  destruct (repeated c schema); [done|]. cbn [andb snd].
  destruct (input_values_from_widgets f !! c) as [v|] eqn:E; cbn [default]; [|done].
  destruct (Hvals c v E) as [[[n ->]|(o & -> & Hcat)] Hfits].
  - specialize (Hfits n eq_refl). destruct n as [z|x]; cbn in *.
    + by rewrite Hfits.
    + by destruct (F64.is_nan x).
  - by rewrite (categorical_not_numerical c Hcat) in Hnum.
Qed.

(** In a run of the page, record assembly warns for exactly the schema
    columns that have no widget (those outside [numerical_cols] and
    [categorical_widget_map]), in schema order, and stores NaN for each of
    them: the branch that stores "Unknown" is never taken. *)
Theorem page_warns_for_columns_without_widget schema w :
  ∃ f r ws,
    collect_inputs schema w = Ok f ∧
    assemble str_to_number schema (input_values_from_widgets f) = Ok (r, ws) ∧
    ws = map missing_feature_warning
           (filter (fun c => in_list c numerical_cols
                             || Dict.mem categorical_widget_map c = false) schema) ∧
    (∀ c, c ∈ schema → input_values_from_widgets f !! c = None →
          Dict.get r c = Some nan).
Proof.
  destruct (collect_inputs_widget_values schema w) as (f & Hf & Hc & Hv).
  exists f. eexists _, _. split; [done|]. split; [apply assemble_eq|]. split.
  - f_equal. unfold uncollected. apply filter_iff_on.
    intros c Hin. rewrite eq_None_not_Some, (Hc c), widget_columns_elem_of.
    destruct (in_list c numerical_cols), (Dict.mem categorical_widget_map c);
      cbn [orb]; intuition congruence.
  - intros c Hin Hnone. rewrite fold_get_schema by done. f_equal.
    rewrite (page_assigned_value schema f c Hc Hv Hin).
    by rewrite Hnone.
Qed.

(** In a run of the page whose number entries are in the range of [int64],
    what the preprocessor receives for a schema column is the value its
    widget returned, unchanged by assembly and by the coercion loop, and NaN
    for a column without a widget; only a column of [numerical_cols] that the
    schema lists more than once is replaced by NaN. *)
Theorem preprocessor_receives_widget_outputs schema w :
  (∀ label, fits_int64 (number_input w label) = true) →
  ∃ f r ws,
    collect_inputs schema w = Ok f ∧
    assemble str_to_number schema (input_values_from_widgets f) = Ok (r, ws) ∧
    ∀ c, c ∈ schema →
      Dict.get (frame_for_preprocessor str_to_number schema r) c
      = Some (if in_list c numerical_cols && repeated c schema then nan
              else default nan (input_values_from_widgets f !! c)).
Proof.
  intros Hentries.
  destruct (collect_inputs_int64_values schema w Hentries) as (f & Hf & Hc & Hv).
  exists f. eexists _, _. split; [done|]. split; [apply assemble_eq|].
  intros c Hin. rewrite frame_get by done. f_equal.
  unfold Dict.get_default. rewrite fold_get_schema by done.
  rewrite (page_assigned_value schema f c Hc); [by apply page_cell_coerced | | done].
  intros c' v' Hv'. by apply (Hv c' v').
Qed.

End PageAssembly.

(** An instance: the default page of a schema that lists the mileage twice;
    the body type reaches the preprocessor as selected, the mileage as NaN. *)
Lemma preprocessor_receives_widget_outputs_witness :
  let w := {| number_input := fun _ => NInt 50000; selected_index := fun _ => 0%nat;
              button_clicked := fun _ => false |} in
  ∃ f r ws,
    collect_inputs ["mileage"; "body_type"; "mileage"] w = Ok f ∧
    assemble integer_literal ["mileage"; "body_type"; "mileage"]
      (input_values_from_widgets f) = Ok (r, ws) ∧
    Dict.get (frame_for_preprocessor integer_literal
                ["mileage"; "body_type"; "mileage"] r) "body_type"
    = Some (VStr "Convertible") ∧
    Dict.get (frame_for_preprocessor integer_literal
                ["mileage"; "body_type"; "mileage"] r) "mileage"
    = Some nan.
Proof.
  intros w.
  destruct (preprocessor_receives_widget_outputs integer_literal
              ["mileage"; "body_type"; "mileage"] w (fun _ => eq_refl))
    as (f & r & ws & Hf & Hr & Hframe).
  exists f, r, ws. split; [exact Hf|]. split; [exact Hr|].
  assert (Hform : input_values_from_widgets f !! "body_type" = Some (VStr "Convertible")).
  { vm_compute in Hf. injection Hf as <-. by vm_compute. }
  split.
  - rewrite Hframe by (apply (bool_decide_unpack _); by vm_compute).
    by rewrite Hform.
  - by rewrite Hframe by (apply (bool_decide_unpack _); by vm_compute).
Defined.

(** ** The range checks of the first column *)



Lemma num_int_float_bounds z :
  (num_lt (NInt z) (NFloat (F64.lit 1 1)) = (z <? 1)) ∧
  (num_lt (NInt z) (NFloat (F64.of_Z 1)) = (z <? 1)) ∧
  (num_gt (NInt z) (NFloat (F64.of_Z 10)) = (10 <? z)) ∧
  (num_gt (NInt z) (NFloat (F64.of_Z 100)) = (100 <? z)).
Proof.
  destruct (num_lt_int_float z (F64.lit 1 1) 7205759403792794 56 eq_refl)
    as [-> _]; [by vm_compute|].
  destruct (num_lt_int_float z (F64.of_Z 1) 4503599627370496 52 eq_refl)
    as [-> _]; [by vm_compute|].
  destruct (num_lt_int_float z (F64.of_Z 10) 5629499534213120 49 eq_refl)
    as [_ ->]; [by vm_compute|].
  destruct (num_lt_int_float z (F64.of_Z 100) 7036874417766400 46 eq_refl)
    as [_ ->]; [by vm_compute|].
  change (2 ^ 56) with 72057594037927936. change (2 ^ 52) with 4503599627370496.
  change (2 ^ 49) with 562949953421312. change (2 ^ 46) with 70368744177664.
  split_and!;
    match goal with |- (?a <? ?b) = (?c <? ?d) =>
      destruct (Z.ltb_spec a b), (Z.ltb_spec c d); first [done | lia]
    end.
Qed.

Ltac ltb_cases :=
  repeat match goal with
         | |- context [?a <? ?b] => destruct (Z.ltb_spec a b)
         end;
  cbn [orb snd]; split; intros; first [lia | done].

(** For a whole number [z] returned by the widget, each range check of the
    form leaves [valid_inputs] alone exactly on a closed interval; mileage
    and car age have no blocking check. The float bounds 0.1, 1.0, 10.0 and
    100.0 are compared exactly with the integer. *)
Theorem range_checks_on_integers (z : Z) :
  (snd (check_mileage (NInt z)) = true ∧ snd (check_car_age (NInt z)) = true) ∧
  (snd (check_horsepower (NInt z)) = true ↔ 10 <= z <= 1200) ∧
  (snd (check_engine_displacement (NInt z)) = true ↔ 1 <= z <= 10) ∧
  (snd (check_fuel_tank_volume (NInt z)) = true ↔ 1 <= z <= 100) ∧
  (snd (check_city_fuel_economy (NInt z)) = true ↔ 1 <= z <= 150) ∧
  (snd (check_highway_fuel_economy (NInt z)) = true ↔ 1 <= z <= 150) ∧
  (snd (check_daysonmarket (NInt z)) = true ↔ 0 <= z) ∧
  (snd (check_owner_count (NInt z)) = true ↔ 0 <= z <= 10) ∧
  (snd (check_savings_amount (NInt z)) = true ↔ 0 <= z) ∧
  (snd (check_seller_rating (NInt z)) = true ↔ 0 <= z <= 5).
Proof.
  destruct (num_int_float_bounds z) as (Hlt01 & Hlt1 & Hgt10 & Hgt100).
  unfold check_mileage, check_car_age, check_horsepower, check_engine_displacement,
    check_fuel_tank_volume, check_city_fuel_economy, check_highway_fuel_economy,
    check_daysonmarket, check_owner_count, check_savings_amount, check_seller_rating.
  rewrite Hlt01, !Hlt1, Hgt10, Hgt100, !num_lt_int, !num_gt_int.
  split_and!.
  - by repeat case_match.
  - by repeat case_match.
  - ltb_cases.
  - destruct (Z.ltb_spec 10 z), (Z.ltb_spec z 1); cbn [orb snd];
      [split; intros; first [lia | done].. |].
    split; [intros _; lia | intros _; by repeat case_match].
  - ltb_cases.
  - ltb_cases.
  - ltb_cases.
  - ltb_cases.
  - ltb_cases.
  - ltb_cases.
  - ltb_cases.
Qed.

(** A NaN passes every check of the form, because each comparison with NaN
    is false: no error, warning or hint is shown and [valid_inputs] is left
    alone. *)
Theorem nan_passes_every_check :
  Forall (fun check => check (NFloat S754_nan) = ([], true))
    [check_mileage; check_car_age; check_horsepower; check_engine_displacement;
     check_fuel_tank_volume; check_city_fuel_economy; check_highway_fuel_economy;
     check_daysonmarket; check_owner_count; check_savings_amount;
     check_seller_rating].
Proof. repeat constructor. Qed.

(** ** One run of the page *)

Section RunFacts.
Context {features : Type}.
Variable str_to_number : string -> option number.
Variable preprocessor_transform : list (string * value) -> result features.
Variable model_predict : features -> result spec_float.
Variable round2 : spec_float -> spec_float.

Lemma predict_and_format_calls input_df selected_currency table made r :
  predict_and_format preprocessor_transform model_predict round2
    input_df selected_currency table = (made, r) →
  (made = [CallTransform input_df] ∧
   ∃ e, preprocessor_transform input_df = Raise e ∧ r = Raise e) ∨
  (∃ processed_input,
     made = [CallTransform input_df; CallPredict processed_input] ∧
     preprocessor_transform input_df = Ok processed_input ∧
     match model_predict processed_input with
     | Raise e => r = Raise e
     | Ok prediction =>
         r = snd <$> convert (round2 prediction) selected_currency table
     end).
Proof.
  unfold predict_and_format.
  destruct (preprocessor_transform input_df) as [processed_input|e].
  - destruct (model_predict processed_input) as [prediction|e] eqn:E;
      intros [= <- <-]; right; exists processed_input; by rewrite E.
  - intros [= <- <-]. left. split; [done|]. by exists e.
Qed.

(** A run of the page never raises, whatever the widgets, the rate service,
    the preprocessor and the model do. The model is called only on what the
    preprocessor returned for a frame, after that one call of the
    preprocessor, and a price is shown only when both calls were made and
    succeeded and the conversion did; the price shown is then the display
    string of the rounded prediction converted with the fetched table. *)
Theorem run_never_raises schema w selected_currency rates_outcome :
  ∃ out,
    run str_to_number preprocessor_transform model_predict round2
      schema w selected_currency rates_outcome = Ok out ∧
    (calls out = [] ∨
     (∃ input_df, calls out = [CallTransform input_df]) ∨
     (∃ input_df processed_input,
        calls out = [CallTransform input_df; CallPredict processed_input] ∧
        preprocessor_transform input_df = Ok processed_input)) ∧
    (∀ shown_price, formatted_price out = Some shown_price →
       ∃ input_df processed_input prediction table amount,
         calls out = [CallTransform input_df; CallPredict processed_input] ∧
         preprocessor_transform input_df = Ok processed_input ∧
         model_predict processed_input = Ok prediction ∧
         Rates.get_exchange_rates rates_outcome = Ok table ∧
         convert (round2 prediction) selected_currency table = Ok (amount, shown_price)).
Proof.
  unfold run.
  destruct (get_exchange_rates_ok rates_outcome) as [table Htable]. rewrite Htable.
  destruct (collect_inputs_ok schema w) as (f & -> & _ & _).
  cbn [mbind result_bind]. unfold gate_and_predict.
  match goal with |- context [st_button w ?l ?d] => destruct (st_button w l d) end.
  2:{ eexists. split; [done|]. cbn [calls formatted_price]. split; [by left | done]. }
  unfold on_predict. rewrite assemble_eq. cbn [mbind result_bind].
  match goal with |- context [predict_and_format ?t ?m ?r ?df ?c ?tb] =>
    destruct (predict_and_format t m r df c tb) as [made res] eqn:E;
    apply predict_and_format_calls in E
  end.
  destruct E as [[-> (e & He & ->)]|(processed_input & -> & Ht & Hm)].
  - eexists. split; [done|]. cbn [calls formatted_price].
    split; [right; left; by eexists | done].
  - destruct res as [formatted|e]; (eexists; split; [done|]); cbn [calls formatted_price];
      (split; [right; right; by eexists _, _ |]); [|done].
    intros shown_price [= <-].
    destruct (model_predict processed_input) as [prediction|e] eqn:Em; [|done].
    destruct (convert (round2 prediction) selected_currency table) as [[amount p]|e] eqn:Ec;
      [|done].
    cbn in Hm. injection Hm as ->.
    by eexists _, _, prediction, table, amount.
Qed.

(** When the form is valid and the enabled Predict button is pressed, the
    preprocessor is called, and the run ends either with a price, or with
    exactly one prediction error shown after the form's messages and the
    assembly warnings: every exception of the transform, the model or the
    conversion is caught and reported. *)
Theorem pressed_predict_reports_outcome schema w selected_currency rates_outcome f :
  collect_inputs schema w = Ok f →
  valid_inputs f = true →
  button_clicked w "Predict Price" = true →
  ∃ out input_df rest,
    run str_to_number preprocessor_transform model_predict round2
      schema w selected_currency rates_outcome = Ok out ∧
    calls out = CallTransform input_df :: rest ∧
    match formatted_price out with
    | Some _ =>
        messages out
        = shown f ++ map missing_feature_warning
                       (uncollected schema (input_values_from_widgets f))
    | None =>
        ∃ e, messages out
             = shown f ++ map missing_feature_warning
                            (uncollected schema (input_values_from_widgets f))
               ++ [StPredictionError e]
    end.
Proof.
  intros Hf Hvalid Hclick. unfold run.
  destruct (get_exchange_rates_ok rates_outcome) as [table ->].
  rewrite Hf. cbn [mbind result_bind]. unfold gate_and_predict.
  rewrite Hvalid. cbn [negb].
  unfold st_button. rewrite ?Hvalid. cbn [negb]. rewrite Hclick.
  unfold on_predict. rewrite assemble_eq. cbn [mbind result_bind].
  unfold predict_and_format.
  destruct (preprocessor_transform _) as [processed_input|e].
  - destruct (model_predict processed_input) as [prediction|e].
    + destruct (convert (round2 prediction) selected_currency table) as [[amount p]|e];
        cbn [fmap result_fmap snd]; eexists _, _, _; (split; [done|]);
        cbn [calls formatted_price messages]; (split; [done|]).
      * done.
      * by exists e.
    + eexists _, _, _. split; [done|]. cbn [calls formatted_price messages].
      split; [done | by exists e].
  - eexists _, _, _. split; [done|]. cbn [calls formatted_price messages].
    split; [done | by exists e].
Qed.

End RunFacts.

(** An instance: a preprocessor that rejects every frame. *)
Lemma pressed_predict_reports_outcome_witness :
  ∃ out rest,
    run (features := unit) (fun _ => None) (fun _ => Raise ValueError)
      (fun _ => Ok (F64.of_Z 0)) (fun x => x) ["horsepower"]
      {| number_input := fun _ => NInt 200; selected_index := fun _ => 0%nat;
         button_clicked := fun _ => true |} "USD" Rates.NetworkFailure = Ok out ∧
    calls out = CallTransform [("horsepower", VInt 200)] :: rest ∧
    formatted_price out = None ∧
    messages out = [StPredictionError ValueError].
Proof.
  edestruct (pressed_predict_reports_outcome (features := unit) (fun _ => None)
              (fun _ => Raise ValueError) (fun _ => Ok (F64.of_Z 0)) (fun x => x)
              ["horsepower"]
              {| number_input := fun _ => NInt 200; selected_index := fun _ => 0%nat;
                 button_clicked := fun _ => true |} "USD" Rates.NetworkFailure)
    as (out & input_df & rest & Hrun & Hcalls & _); [reflexivity..|].
  exists out, rest. split; [exact Hrun|].
  vm_compute in Hrun. injection Hrun as <-. cbn [calls] in Hcalls.
  injection Hcalls as <- <-. done.
Defined.

Import Startup.

(** ** Start of the script *)

Section LoadFacts.
Context {A : Type}.
Variable joblib_load : string -> load_exn + option A.

(** [load_resources] is all or nothing: it returns the three objects the
    files hold and shows no message, or it returns [None] three times and
    shows exactly one error; the form is shown only in the first case, and
    only if none of the three objects is [None]. *)
Theorem load_resources_all_or_nothing :
  let '(resources, errors) := load_resources joblib_load in
  ((∃ model preprocessor original_cols,
      joblib_load "rf_model.joblib" = inr model ∧
      joblib_load "preprocessor.joblib" = inr preprocessor ∧
      joblib_load "original_feature_columns.joblib" = inr original_cols ∧
      resources = (model, preprocessor, original_cols) ∧ errors = []) ∨
   (resources = (None, None, None) ∧ ∃ text, errors = [StError text])) ∧
  (form_shown resources = true →
     errors = [] ∧
     ∃ model preprocessor original_cols,
       joblib_load "rf_model.joblib" = inr (Some model) ∧
       joblib_load "preprocessor.joblib" = inr (Some preprocessor) ∧
       joblib_load "original_feature_columns.joblib" = inr (Some original_cols)).
Proof.
  unfold load_resources.
  destruct (joblib_load "rf_model.joblib") as [[e|e]|model];
    [split; [right; split; [done|by eexists] | done]..|].
  destruct (joblib_load "preprocessor.joblib") as [[e|e]|preprocessor];
    [split; [right; split; [done|by eexists] | done]..|].
  destruct (joblib_load "original_feature_columns.joblib") as [[e|e]|original_cols];
    [split; [right; split; [done|by eexists] | done]..|].
  split; [left; by eexists _, _, _|].
  destruct model, preprocessor, original_cols; try done.
  intros _. split; [done|]. by eexists _, _, _.
Qed.

End LoadFacts.

Lemma reset_fold {V} (keys : list string) (session_state : gmap string V) k :
  fold_left reset_step keys session_state !! k
  = if decide (k ∈ keys ∧ k ≠ "theme") then None else session_state !! k.
Proof.
  revert session_state. induction keys as [|key keys IH]; intros ss; cbn [fold_left].
  - rewrite decide_False; [done|]. intros [?%elem_of_nil _]. done.
  - rewrite IH. unfold reset_step, in_list. cbn [existsb]. rewrite orb_false_r.
    destruct (decide (k = "theme")) as [->|Hk].
    + rewrite !decide_False by (by intros [_ ?]).
      destruct (String.eqb_spec key "theme") as [->|Hne]; cbn [negb]; [done|].
      by rewrite lookup_delete_ne.
    + destruct (decide (k ∈ keys)) as [Hin|Hin].
      * rewrite !decide_True; [done | split; [by right | done] | done].
      * rewrite (decide_False (P := k ∈ keys ∧ _)) by tauto.
        destruct (decide (k = key)) as [->|Hne].
        -- rewrite decide_True by (split; [left | done]).
           destruct (String.eqb_spec key "theme") as [?|_]; [done|]. cbn [negb].
           apply lookup_delete_eq.
        -- rewrite decide_False by (intros [[?|?]%elem_of_cons _]; done).
           destruct (String.eqb_spec key "theme") as [?|_]; cbn [negb]; [done|].
           by rewrite lookup_delete_ne.
Qed.

(** After Reset the session state holds the key "theme" with the value it
    had, if it had one, and no other key. *)
Theorem reset_keeps_only_theme {V} (session_state : gmap string V) k :
  reset_session session_state !! k
  = if decide (k = "theme") then session_state !! k else None.
Proof.
  unfold reset_session. rewrite reset_fold.
  destruct (decide (k = "theme")) as [->|Hne].
  - rewrite decide_False; [done|]. by intros [_ ?].
  - case_decide as Hkey; [done|].
    destruct (session_state !! k) as [v|] eqn:E; [|done].
    exfalso. apply Hkey. split; [|done].
    apply list_elem_of_fmap. exists (k, v). split; [done|].
    by apply elem_of_map_to_list.
Qed.

(** Whatever the user selects in the sidebar is one of the seven currencies,
    and each of them has a symbol in [currency_symbols] and a positive finite
    rate in the fallback table: for the fallback table the defaults ["$"] and
    [1.0] of the two [.get] calls are never used. *)
Theorem selected_currency_is_covered (w : widgets) :
  ∃ code,
    selected_currency w = VStr code ∧
    Dict.mem currencies code = true ∧
    Dict.mem currency_symbols code = true ∧
    Rates.has_rate Rates.fallback_rates code = true.
Proof.
  unfold selected_currency.
  destruct (st_selectbox_in_options w "Select Currency" (Dict.keys currencies))
    as (code & -> & Hcode); [done|].
  exists code. split; [done|]. cbn in Hcode.
  cases_elem_of Hcode; by vm_compute.
Qed.
